(** * OPTK, [src/python/gp.py]: expected improvement and the candidate proposer

    A shallow embedding of the two functions of [gp.py]:

    - [expected_improvement], the acquisition scorer (lines 31-66);
    - [generate_parameters], the multi-start candidate proposer (lines 68-117).

    The numbers are those of IEEE-754 binary64, the kernel's primitive
    floats, which are what NumPy computes with; the definitions reach them
    through the class [Scalar], which lists the operations that [gp.py]
    applies to a number.  The collaborators of the code, scikit-learn's
    regressor, SciPy's [norm.cdf], [norm.pdf] and [minimize], and NumPy's
    random generator, are parameters. *)

From Stdlib Require Import List Bool Arith ZArith Lia.
From Stdlib Require Import Floats.
Import ListNotations.

Set Implicit Arguments.

(* ------------------------------------------------------------------ *)
(** ** Python exceptions and the error monad *)

(** The exceptions the modelled lines can end in.  None of them is raised
    by a [raise] statement of [gp.py]: the file has none. *)
Inductive exn : Type :=
| ValueError        (* np.max of an empty array; shapes that do not broadcast *)
| IndexError        (* boolean index of another shape; bs[:, 0] on a 1-D array *)
| AttributeError    (* 'NoneType' object has no attribute 'tolist' *)
| TypeError         (* 'float' object is not subscriptable *)
| OptimizerError    (* whatever scipy.optimize.minimize raised *)
| NoCandidateFound. (* the dedicated signal of the specification; no line raises it *)

Inductive result (A : Type) : Type :=
| Ok (a : A)
| Raise (e : exn).
Arguments Ok {A} a.
Arguments Raise {A} e.

Definition rbind {A B} (r : result A) (k : A -> result B) : result B :=
  match r with
  | Ok a => k a
  | Raise e => Raise e
  end.

Declare Scope result_scope.
Delimit Scope result_scope with result.
Notation "x <- r ;; k" := (rbind r (fun x => k))
  (at level 61, r at next level, right associativity) : result_scope.

Fixpoint mapM {A B} (f : A -> result B) (l : list A) : result (list B) :=
  match l with
  | [] => Ok []
  | a :: l' =>
      (b <- f a ;;
       bs <- mapM f l' ;;
       Ok (b :: bs))%result
  end.

(* ------------------------------------------------------------------ *)
(** ** The numeric carrier *)

(** What [gp.py] does with a number: the four operations, negation, the
    comparisons [==], [<], [<=], the step of [np.max], and the two
    constants [0.0] and [sys.float_info.max]. *)
Class Scalar (F : Type) : Type := {
  fzero : F;
  float_max : F;
  fadd : F -> F -> F;
  fsub : F -> F -> F;
  fmul : F -> F -> F;
  fdiv : F -> F -> F;
  fopp : F -> F;
  feqb : F -> F -> bool;
  fltb : F -> F -> bool;
  fleb : F -> F -> bool;
  fmaximum : F -> F -> F
}.

(** The order facts the proofs use; binary64 has them. *)
Class ScalarOrder (F : Type) {S : Scalar F} : Prop := {
  fltb_irrefl : forall x, fltb x x = false;
  fltb_trans : forall x y z, fltb x y = true -> fltb y z = true -> fltb x z = true;
  fleb_fltb_trans : forall x y z, fleb x y = true -> fltb y z = true -> fltb x z = true;
  fltb_zero_neq : forall s, fltb fzero s = true -> feqb s fzero = false;
  fmaximum_cases : forall x y, fmaximum x y = x \/ fmaximum x y = y;
  fmaximum_above : forall x y z,
    fltb (fmaximum x y) z = true -> fltb x z = true /\ fltb y z = true
}.
Arguments ScalarOrder F {S}.

(** *** binary64 *)

Module Binary64.

(** [np.maximum]: the first operand when it is a NaN or not below the
    second, the second operand otherwise, so that a NaN propagates. *)
Definition maximum (a b : float) : float :=
  if (PrimFloat.leb b a || negb (PrimFloat.eqb a a))%bool then a else b.

#[export] Instance scalar : Scalar float := {|
  fzero := 0%float;
  float_max := 0x1.fffffffffffffp+1023%float;
  fadd := PrimFloat.add;
  fsub := PrimFloat.sub;
  fmul := PrimFloat.mul;
  fdiv := PrimFloat.div;
  fopp := PrimFloat.opp;
  feqb := PrimFloat.eqb;
  fltb := PrimFloat.ltb;
  fleb := PrimFloat.leb;
  fmaximum := maximum
|}.

End Binary64.

(* ------------------------------------------------------------------ *)
(** ** The fragment of NumPy that [gp.py] uses *)

Section NumPy.

Context {F : Type} `{Scalar F}.

(** A two-dimensional array is the list of its rows.  Every array that
    [gp.py] builds is rectangular. *)
Definition matrix : Type := list (list F).

Inductive ndarray : Type :=
| Arr1 (v : list F)       (* shape (m,) *)
| Arr2 (rows : matrix).   (* shape (m, k) *)

Definition nd_map (f : F -> F) (a : ndarray) : ndarray :=
  match a with
  | Arr1 v => Arr1 (map f v)
  | Arr2 rows => Arr2 (map (map f) rows)
  end.

Definition ravel (a : ndarray) : list F :=
  match a with
  | Arr1 v => v
  | Arr2 rows => concat rows
  end.

(** Broadcasting puts a one-dimensional operand of length [m] in shape
    [(1, m)]. *)
Definition atleast_2d (a : ndarray) : matrix :=
  match a with
  | Arr1 v => [v]
  | Arr2 rows => rows
  end.

(** [a.ndim]. *)
Definition ndim (a : ndarray) : nat :=
  match a with
  | Arr1 _ => 1
  | Arr2 _ => 2
  end.

(** [v.reshape(-1, 1)]: a column. *)
Definition reshape_col (v : list F) : matrix := map (fun s => [s]) v.

(** [np.max(a)]: the reduction of [np.maximum] over all the elements; an
    empty array has no maximum. *)
Definition np_max (a : ndarray) : result F :=
  match ravel a with
  | [] => Raise ValueError
  | x :: l => Ok (fold_left fmaximum l x)
  end.

(** One axis of NumPy's broadcasting: equal lengths go elementwise, a
    length of one is stretched, anything else does not broadcast. *)
Definition broadcast {A B C} (f : A -> B -> result C)
    (a : list A) (b : list B) : result (list C) :=
  if length a =? length b then mapM (fun p => f (fst p) (snd p)) (combine a b)
  else match a, b with
       | [x], _ => mapM (f x) b
       | _, [y] => mapM (fun x => f x y) a
       | _, _ => Raise ValueError
       end.

Definition broadcast2 (op : F -> F -> F) (a b : matrix) : result matrix :=
  broadcast (broadcast (fun x y => Ok (op x y))) a b.

Definition same_shape {A B} (a : list (list A)) (b : list (list B)) : bool :=
  (length a =? length b)
  && forallb (fun p => length (fst p) =? length (snd p)) (combine a b).

(** [a[mask] = v] for a boolean [mask]: the mask must have the shape of
    [a]. *)
Definition setitem_mask (a : matrix) (mask : list (list bool)) (v : F)
    : result matrix :=
  if same_shape a mask
  then Ok (map (fun p : list F * list bool =>
                  map (fun q : F * bool => if snd q then v else fst q)
                      (combine (fst p) (snd p)))
               (combine a mask))
  else Raise IndexError.

End NumPy.

Arguments matrix F : clear implicits.
Arguments ndarray F : clear implicits.

(* ------------------------------------------------------------------ *)
(** ** [expected_improvement] *)

Section ExpectedImprovement.

Context {F : Type} `{Scalar F}.

(** A fitted [GaussianProcessRegressor], as far as [gp.py] reads it:
    [predict(X)] is the posterior mean, in the shape of the targets the
    regressor was fitted on ([(m,)] for a vector of targets, [(m, 1)] for
    the column of the docstring), and [predict(X, return_std=True)] adds
    the posterior standard deviation, of shape [(m,)]. *)
Record GaussianProcessRegressor : Type := {
  predict_mean : matrix F -> ndarray F;
  predict_std : matrix F -> list F
}.

(** [scipy.stats.norm.cdf] and [norm.pdf]. *)
Variables norm_cdf norm_pdf : F -> F.

(** The closed form at one candidate. *)
Definition ei_formula (imp sigma : F) : F :=
  fadd (fmul imp (norm_cdf (fdiv imp sigma)))
       (fmul sigma (norm_pdf (fdiv imp sigma))).

(** Lines 53-66.  [np.errstate(divide='warn')] makes a division by zero a
    warning, so the quotient is computed and nothing is raised there. *)
Definition expected_improvement (X X_obs : matrix F) (Y_obs : ndarray F)
    (gpr : GaussianProcessRegressor) (xi : F) : result (ndarray F) :=
  let mu := predict_mean gpr X in
  let sigma := predict_std gpr X in
  let mu_sample := predict_mean gpr X_obs in
  let sigma := reshape_col sigma in
  (mu_sample_opt <- np_max mu_sample ;;
   let imp := nd_map (fun m => fsub (fsub m mu_sample_opt) xi) mu in
   Z <- broadcast2 fdiv (atleast_2d imp) sigma ;;
   l <- broadcast2 fmul (atleast_2d imp) (map (map norm_cdf) Z) ;;
   r <- broadcast2 fmul sigma (map (map norm_pdf) Z) ;;
   ei <- broadcast2 fadd l r ;;
   ei <- setitem_mask ei (map (map (fun s => feqb s fzero)) sigma) fzero ;;
   Ok (Arr2 ei))%result.

End ExpectedImprovement.

Arguments GaussianProcessRegressor F : clear implicits.

(* ------------------------------------------------------------------ *)
(** ** [generate_parameters] *)

Section Proposer.

Context {F : Type} `{Scalar F}.

(** The state of NumPy's process-wide generator, and one sample of
    [np.random.uniform(low, high)] drawn from it, for bounds whose
    difference is finite (NumPy refuses the others). *)
Variable G : Type.
Variable uniform : F -> F -> G -> F * G.

(** [GaussianProcessRegressor(kernel=m52, alpha=noise**2)] followed by
    [fit(Xs, Ys)]: the fitted regressor.  The observation set has as many
    outputs as inputs, on which [fit] returns. *)
Variable fit : matrix F -> ndarray F -> GaussianProcessRegressor F.

(** What [gp.py] reads of SciPy's [OptimizeResult].  [res.fun] holds one
    number, [res_fun], the objective value at [res.x]; [res_ndim] is the
    number of dimensions in which it holds it: [0] for the plain number
    that SciPy makes of the objective value, [1] or more for an array of
    one element, which is what the objective of line 108 returns and what
    line 114 expects.  [res_x] is [res.x]. *)
Record OptimizeResult : Type := {
  res_fun : F;
  res_ndim : nat;
  res_x : list F
}.

(** [res.fun[0]], line 114: a plain number has no subscript. *)
Definition fun_item (res : OptimizeResult) : result F :=
  match res_ndim res with
  | O => Raise TypeError
  | S _ => Ok (res_fun res)
  end.

(** [minimize(objective, x0=x0, bounds=bs, method='L-BFGS-B')], which may
    raise. *)
Variable minimize :
  (list F -> result (ndarray F)) -> list F -> list (F * F) -> result OptimizeResult.

(** The calls made to the collaborators, oldest first. *)
Inductive event : Type :=
| EvFit (Xs : matrix F) (Ys : ndarray F)
| EvMinimize (x0 : list F).

Record world : Type := {
  rng : G;
  calls : list event
}.

(** State and exceptions: a computation runs in a world and ends in a value
    or an exception, and a world. *)
Definition M (A : Type) : Type := world -> result A * world.

Definition ret {A} (a : A) : M A := fun w => (Ok a, w).

Definition raise {A} (e : exn) : M A := fun w => (Raise e, w).

Definition bind {A B} (c : M A) (k : A -> M B) : M B :=
  fun w =>
    match c w with
    | (Ok a, w') => k a w'
    | (Raise e, w') => (Raise e, w')
    end.

Definition log (e : event) : M unit :=
  fun w => (Ok tt, {| rng := rng w; calls := calls w ++ [e] |}).

Definition lift {A} (r : result A) : M A := fun w => (r, w).

Declare Scope world_scope.
Delimit Scope world_scope with world.
Local Notation "x <- c ;; k" := (bind c (fun x => k))
  (at level 61, c at next level, right associativity) : world_scope.
Local Open Scope world_scope.

(** One sample between [low] and [high]. *)
Definition sample (low high : F) : M F :=
  fun w =>
    let (x, g) := uniform low high (rng w) in
    (Ok x, {| rng := g; calls := calls w |}).

(** [np.random.uniform(bs[:, 0], bs[:, 1], size=len(bs))]: one sample per
    pair of bounds, in order. *)
Fixpoint uniform_row (bs : list (F * F)) : M (list F) :=
  match bs with
  | [] => ret []
  | (low, high) :: bs' =>
      x <- sample low high ;;
      xs <- uniform_row bs' ;;
      ret (x :: xs)
  end.

Fixpoint uniform_rows (n : nat) (bs : list (F * F)) : M (matrix F) :=
  match n with
  | O => ret []
  | S n' =>
      r <- uniform_row bs ;;
      rs <- uniform_rows n' bs ;;
      ret (r :: rs)
  end.

(** [bs[:, 0]] and [bs[:, 1]]: [np.array([])] is one-dimensional and has no
    columns. *)
Definition columns (bs : list (F * F)) : M unit :=
  match bs with
  | [] => raise IndexError
  | _ :: _ => ret tt
  end.

(** [np.random.uniform(bs[:, 0], bs[:, 1], size=(n, dim))]: the bounds are
    broadcast along the rows, so there are [dim] of them or one. *)
Definition uniform_matrix (bs : list (F * F)) (n dim : nat) : M (matrix F) :=
  _ <- columns bs ;;
  if length bs =? dim then uniform_rows n bs
  else match bs with
       | [b] => uniform_rows n (repeat b dim)
       | _ => raise ValueError
       end.

(** [Xs.size] and [Xs.shape[1]] of [Xs = np.array(X_obs)]. *)
Definition np_size (Xs : matrix F) : nat := length (concat Xs).

Definition shape1 (Xs : matrix F) : nat := length (hd [] Xs).

(** [X.reshape(-1, dim)]: the rows of [dim] numbers each. *)
Fixpoint chunks (fuel dim : nat) (v : list F) : matrix F :=
  match fuel, v with
  | O, _ | _, [] => []
  | S fuel', _ :: _ => firstn dim v :: chunks fuel' dim (skipn dim v)
  end.

Definition reshape_rows (v : list F) (dim : nat) : result (matrix F) :=
  if ((dim =? 0) || negb (length v mod dim =? 0))%bool then Raise ValueError
  else Ok (chunks (length v) dim v).

Definition n_restarts : nat := 25.

(** Lines 108-109. *)
Definition min_obj
    (acquisition : matrix F -> matrix F -> ndarray F ->
                   GaussianProcessRegressor F -> result (ndarray F))
    (Xs : matrix F) (Ys : ndarray F) (gpr : GaussianProcessRegressor F)
    (dim : nat) (X : list F) : result (ndarray F) :=
  (Xr <- reshape_rows X dim ;;
   a <- acquisition Xr Xs Ys gpr ;;
   Ok (nd_map fopp a))%result.

(** Lines 111-115: the loop over the starting points, with the best value
    and location so far. *)
Fixpoint restarts (objective : list F -> result (ndarray F)) (bs : list (F * F))
    (starts : matrix F) (min_val : F) (min_x : option (list F))
    : M (F * option (list F)) :=
  match starts with
  | [] => ret (min_val, min_x)
  | x0 :: starts' =>
      _ <- log (EvMinimize x0) ;;
      res <- lift (minimize objective x0 bs) ;;
      if fltb (res_fun res) min_val
      then
        v <- lift (fun_item res) ;;
        restarts objective bs starts' v (Some (res_x res))
      else restarts objective bs starts' min_val min_x
  end.

(** Lines 88-117. *)
Definition generate_parameters
    (acquisition : matrix F -> matrix F -> ndarray F ->
                   GaussianProcessRegressor F -> result (ndarray F))
    (X_obs : matrix F) (Y_obs : list F) (bounds : list (F * F)) : M (list F) :=
  let Xs := X_obs in
  let Ys := Arr1 Y_obs in
  let bs := bounds in
  if np_size Xs =? 0 then
    _ <- columns bs ;;
    uniform_row bs
  else
    _ <- log (EvFit Xs Ys) ;;
    let gpr := fit Xs Ys in
    let dim := shape1 Xs in
    starts <- uniform_matrix bs n_restarts dim ;;
    best <- restarts (min_obj acquisition Xs Ys gpr dim) bs starts float_max None ;;
    match snd best with
    | None => raise AttributeError
    | Some x => ret x
    end.

End Proposer.

Arguments OptimizeResult F : clear implicits.
Arguments event F : clear implicits.
Arguments world F G : clear implicits.
Arguments M F G A : clear implicits.


(* ------------------------------------------------------------------ *)
(** ** Vocabulary of the statements *)

Definition zip_with {A B C} (f : A -> B -> C) (a : list A) (b : list B) : list C :=
  map (fun p => f (fst p) (snd p)) (combine a b).

Section Vocabulary.

Context {F : Type} `{Scalar F}.

(** The posterior mean holds one number per candidate, [l]: either as the
    column [(m, 1)] of a regressor fitted on a column of targets (the
    docstring's [Y_obs]), or as a vector [(1,)] for a single candidate,
    which is how [generate_parameters] calls the scorer. *)
Definition per_candidate (a : ndarray F) (l : list F) : Prop :=
  a = Arr2 (reshape_col l) \/ (a = Arr1 l /\ length l = 1).

(** The score of one candidate with posterior mean [m] and standard
    deviation [s], given the incumbent [opt] and the bias [xi]. *)
Definition ei_entry (norm_cdf norm_pdf : F -> F) (opt xi m s : F) : F :=
  if feqb s fzero then fzero
  else ei_formula norm_cdf norm_pdf (fsub (fsub m opt) xi) s.

(** Every coordinate between its bounds, one pair of bounds per coordinate. *)
Definition within (x : F) (b : F * F) : Prop :=
  fleb (fst b) x = true /\ fleb x (snd b) = true.

Definition in_bounds (loc : list F) (bs : list (F * F)) : Prop :=
  Forall2 within loc bs.

Definition valid_bounds (bs : list (F * F)) : Prop :=
  Forall (fun b => fleb (fst b) (snd b) = true) bs.

(** What the proofs assume of [np.random.uniform]: a sample lies between
    [low] and [high] when [low <= high]. *)
Definition uniform_contract {G} (uniform : F -> F -> G -> F * G) : Prop :=
  forall low high g,
    fleb low high = true -> within (fst (uniform low high g)) (low, high).

(** The samples that [uniform_row] and [uniform_rows] draw from the
    generator state [g], and the state they leave. *)
Fixpoint draw_row {G} (uniform : F -> F -> G -> F * G) (bs : list (F * F)) (g : G)
    : list F * G :=
  match bs with
  | [] => ([], g)
  | (low, high) :: bs' =>
      let (x, g1) := uniform low high g in
      let (xs, g2) := draw_row uniform bs' g1 in
      (x :: xs, g2)
  end.

Fixpoint draw_rows {G} (uniform : F -> F -> G -> F * G) (n : nat) (bs : list (F * F))
    (g : G) : matrix F * G :=
  match n with
  | O => ([], g)
  | S n' =>
      let (r, g1) := draw_row uniform bs g in
      let (rs, g2) := draw_rows uniform n' bs g1 in
      (r :: rs, g2)
  end.

(** A box-constrained optimizer: given valid bounds, the location it
    returns is within them. *)
Definition respects_bounds
    (minimize : (list F -> result (ndarray F)) -> list F -> list (F * F) ->
                result (OptimizeResult F)) : Prop :=
  forall objective x0 bs res,
    valid_bounds bs -> minimize objective x0 bs = Ok res -> in_bounds (res_x res) bs.

(** The optimizer returns, start by start, the results [results]. *)
Definition returns
    (minimize : (list F -> result (ndarray F)) -> list F -> list (F * F) ->
                result (OptimizeResult F))
    (objective : list F -> result (ndarray F)) (bs : list (F * F))
    (starts : matrix F) (results : list (OptimizeResult F)) : Prop :=
  Forall2 (fun x0 res => minimize objective x0 bs = Ok res) starts results.

(** All the starts handed to the optimizer, one after the other. *)
Definition run_all
    (minimize : (list F -> result (ndarray F)) -> list F -> list (F * F) ->
                result (OptimizeResult F))
    (objective : list F -> result (ndarray F)) (bs : list (F * F))
    (starts : matrix F) : result (list (OptimizeResult F)) :=
  mapM (fun x0 => minimize objective x0 bs) starts.

(** Line 114 does not raise on [res]: a value below the sentinel comes in
    an array, on which [res.fun[0]] is defined. *)
Definition unwraps (res : OptimizeResult F) : Prop :=
  fltb (res_fun res) float_max = true -> res_ndim res <> 0.

(** The optimizer's report on [res]: the location has [dim] coordinates, and
    the value of [res.fun] is the one number that the objective returns at
    that location. *)
Definition reports (objective : list F -> result (ndarray F)) (dim : nat)
    (res : OptimizeResult F) : Prop :=
  length (res_x res) = dim
  /\ exists a, objective (res_x res) = Ok a /\ ravel a = [res_fun res].

(** The acquisition function returns one number at the location [x], and
    [v] is its negation. *)
Definition negated_acquisition
    (acquisition : matrix F -> matrix F -> ndarray F ->
                   GaussianProcessRegressor F -> result (ndarray F))
    (Xs : matrix F) (Ys : ndarray F) (gpr : GaussianProcessRegressor F)
    (x : list F) (v : F) : Prop :=
  exists a s, acquisition [x] Xs Ys gpr = Ok a /\ ravel a = [s] /\ v = fopp s.

(** One turn of the loop of lines 111-115 on the result [res], when line
    114 does not raise. *)
Definition keep (best : F * option (list F)) (res : OptimizeResult F)
    : F * option (list F) :=
  if fltb (res_fun res) (fst best) then (res_fun res, Some (res_x res)) else best.

(** After the results [seen], the pair [best] of such turns: no result seen
    is below its value, and its location, when there is one, is that of a
    result below the sentinel that none before it equals or undercuts. *)
Definition kept (seen : list (OptimizeResult F)) (best : F * option (list F)) : Prop :=
  (forall res, In res seen -> fltb (res_fun res) (fst best) = false)
  /\ match snd best with
     | None => fst best = float_max
     | Some x =>
         exists i res,
           nth_error seen i = Some res
           /\ res_x res = x /\ res_fun res = fst best
           /\ fltb (fst best) float_max = true
           /\ forall j res', j < i -> nth_error seen j = Some res' ->
                             fleb (res_fun res') (fst best) = false
     end.

End Vocabulary.

(* ------------------------------------------------------------------ *)
(** ** Stand-ins for the collaborators, for the executable examples *)

Module Doubles.

Import Binary64.
Local Open Scope float_scope.

(** A sigmoid and its slope, in the place of [norm.cdf] and [norm.pdf]. *)
Definition cdf (z : float) : float := 0.5 + 0.5 * z / (1 + abs z).

Definition pdf (z : float) : float := 0.5 / ((1 + abs z) * (1 + abs z)).

(** The standard normal distribution itself, at the three arguments at
    which the examples of rounding need it: its cdf and pdf at the two
    neighbouring binary64 numbers next to [-7/6], each rounded to the
    nearest binary64 number from its exact value
    ([0.121672504574381286...] and [0.201998685554058914...] at the first,
    [0.121672504574381241...] and [0.201998685554058861...] at the second),
    and at minus infinity, where both are zero.  Elsewhere the table has
    no entry, which reads as NaN. *)
Definition normal_cdf (z : float) : float :=
  if z =? -0x1.2aaaaaaaaaaaap+0 then 0x1.f25ede3f82929p-4
  else if z =? -0x1.2aaaaaaaaaaabp+0 then 0x1.f25ede3f82925p-4
  else if z =? neg_infinity then 0
  else nan.

Definition normal_pdf (z : float) : float :=
  if z =? -0x1.2aaaaaaaaaaaap+0 then 0x1.9db17ca2513eep-3
  else if z =? -0x1.2aaaaaaaaaaabp+0 then 0x1.9db17ca2513ecp-3
  else if z =? neg_infinity then 0
  else nan.

(** A regressor whose posterior mean is the first coordinate and whose
    posterior deviation is the distance of that coordinate to [1], the
    observed input; the mean comes as a column or as a vector. *)
Definition first (row : list float) : float := hd 0 row.

Definition column_gpr : GaussianProcessRegressor float := {|
  predict_mean := fun X => Arr2 (reshape_col (map first X));
  predict_std := fun X => map (fun row => abs (first row - 1)) X
|}.

Definition vector_gpr : GaussianProcessRegressor float := {|
  predict_mean := fun X => Arr1 (map first X);
  predict_std := fun X => map (fun row => abs (first row - 1)) X
|}.

Definition fit (Xs : matrix float) (Ys : ndarray float) : GaussianProcessRegressor float :=
  vector_gpr.

(** A generator that walks through four fractions of the interval, and
    falls back on the lower bound should rounding leave the interval. *)
Definition fraction (g : nat) : float :=
  match Nat.modulo g 4 with
  | 0%nat => 0.125
  | 1%nat => 0.5
  | 2%nat => 0.875
  | _ => 0.25
  end.

Definition uniform (low high : float) (g : nat) : float * nat :=
  let x := low + (high - low) * fraction g in
  (if ((low <=? x) && (x <=? high))%bool then x else low, S g).

(** Optimizers that go no further than the projection of the starting
    point on the box.  [box_minimize] reports the objective there, as the
    array that the objective returned; [scalar_minimize] reports it as a
    plain number; [nan_minimize] reports NaN, a plain number too;
    [patchy_minimize] reports NaN left of [0.5] and an infinite value at
    [1]; [flaky_minimize] raises on starting points left of [1];
    [unbounded_minimize] reports minus infinity at [1]. *)
Definition clip (x : float) (b : float * float) : float :=
  if fst b <=? x then (if x <=? snd b then x else snd b) else fst b.

Definition project (x0 : list float) (bs : list (float * float)) : list float :=
  map (fun p => clip (fst p) (snd p)) (combine x0 bs).

Definition box_minimize (objective : list float -> result (ndarray float))
    (x0 : list float) (bs : list (float * float)) : result (OptimizeResult float) :=
  if (length x0 =? length bs)%nat then
    match objective (project x0 bs) with
    | Ok a =>
        match ravel a with
        | v :: _ => Ok {| res_fun := v; res_ndim := ndim a; res_x := project x0 bs |}
        | [] => Raise OptimizerError
        end
    | Raise e => Raise e
    end
  else Raise OptimizerError.

Definition scalar_minimize (objective : list float -> result (ndarray float))
    (x0 : list float) (bs : list (float * float)) : result (OptimizeResult float) :=
  match box_minimize objective x0 bs with
  | Ok res => Ok {| res_fun := res_fun res; res_ndim := 0; res_x := res_x res |}
  | Raise e => Raise e
  end.

Definition nan_minimize (objective : list float -> result (ndarray float))
    (x0 : list float) (bs : list (float * float)) : result (OptimizeResult float) :=
  Ok {| res_fun := nan; res_ndim := 0; res_x := x0 |}.

Definition patchy_minimize (objective : list float -> result (ndarray float))
    (x0 : list float) (bs : list (float * float)) : result (OptimizeResult float) :=
  if first x0 <? 0.5 then Ok {| res_fun := nan; res_ndim := 2; res_x := x0 |}
  else if first x0 =? 1 then Ok {| res_fun := infinity; res_ndim := 2; res_x := x0 |}
  else box_minimize objective x0 bs.

Definition flaky_minimize (objective : list float -> result (ndarray float))
    (x0 : list float) (bs : list (float * float)) : result (OptimizeResult float) :=
  if first x0 <? 1 then Raise OptimizerError else box_minimize objective x0 bs.

Definition unbounded_minimize (objective : list float -> result (ndarray float))
    (x0 : list float) (bs : list (float * float)) : result (OptimizeResult float) :=
  if first x0 =? 1 then Ok {| res_fun := neg_infinity; res_ndim := 2; res_x := x0 |}
  else box_minimize objective x0 bs.

(** The scorer with the default bias, as [generate_parameters] receives it. *)
Definition acquisition (X Xs : matrix float) (Ys : ndarray float)
    (gpr : GaussianProcessRegressor float) : result (ndarray float) :=
  expected_improvement cdf pdf X Xs Ys gpr 0x1.47ae147ae147bp-7. (* xi = 0.01 *)

(** The scenario of the specification: two observations on the line and
    the box [[0, 2]], in a world whose generator is in state [0] and in
    which no call has been made. *)
Definition X_obs : matrix float := [[0]; [1]].

Definition Y_obs : list float := [0; 1].

Definition bounds : list (float * float) := [(0, 2)].

Definition w0 : world float nat := {| rng := 0%nat; calls := [] |}.

Definition objective : list float -> result (ndarray float) :=
  min_obj acquisition X_obs (Arr1 Y_obs) (fit X_obs (Arr1 Y_obs)) (shape1 X_obs).

Definition starts : matrix float :=
  fst (draw_rows uniform n_restarts bounds (rng w0)).

(** What an optimizer returns on these starts. *)
Definition results_of
    (minimize : (list float -> result (ndarray float)) -> list float ->
                list (float * float) -> result (OptimizeResult float))
    : list (OptimizeResult float) :=
  match run_all minimize objective bounds starts with
  | Ok results => results
  | Raise _ => []
  end.

(** The cold start of the specification: no observation, a square box. *)
Definition square : list (float * float) := [(-5, 5); (-5, 5)].

End Doubles.


(* ------------------------------------------------------------------ *)
(** ** Lists, broadcasting and masks *)

Lemma mapM_pure {A B} (g : A -> B) (l : list A) :
  mapM (fun a => Ok (g a)) l = Ok (map g l).
Proof.
  induction l as [|a l IH]; simpl; [reflexivity|].
  now rewrite IH.
Qed.

Lemma zip_with_length {A B C} (f : A -> B -> C) a b :
  length a = length b -> length (zip_with f a b) = length a.
Proof.
  intros E. unfold zip_with.
  rewrite length_map, length_combine, <- E. apply Nat.min_id.
Qed.

Lemma zip_with_nth {A B C} (f : A -> B -> C) a b i x y :
  nth_error a i = Some x -> nth_error b i = Some y ->
  nth_error (zip_with f a b) i = Some (f x y).
Proof.
  revert b i. induction a as [|a0 a IH]; intros [|b0 b] [|i]; simpl;
    try discriminate.
  - now intros [= ->] [= ->].
  - apply IH.
Qed.

Section Broadcasting.

Context {F : Type} `{Scalar F}.

Lemma reshape_col_length (l : list F) : length (reshape_col l) = length l.
Proof. apply length_map. Qed.

Lemma reshape_col_map (g : F -> F) (l : list F) :
  map (map g) (reshape_col l) = reshape_col (map g l).
Proof.
  unfold reshape_col. rewrite !map_map. reflexivity.
Qed.

Lemma reshape_col_nth (l : list F) i x :
  nth_error l i = Some x -> nth_error (reshape_col l) i = Some [x].
Proof. intros E. unfold reshape_col. now rewrite nth_error_map, E. Qed.

Lemma broadcast2_col (op : F -> F -> F) (a b : list F) :
  length a = length b ->
  broadcast2 op (reshape_col a) (reshape_col b)
  = Ok (reshape_col (zip_with op a b)).
Proof.
  intros E. unfold broadcast2, broadcast at 1.
  rewrite !reshape_col_length, E, Nat.eqb_refl.
  revert b E. induction a as [|x a IH]; intros [|y b] E; try discriminate.
  - reflexivity.
  - injection E as E. simpl. rewrite (IH b E). reflexivity.
Qed.

Lemma setitem_mask_col (g : F -> bool) (v : F) (a s : list F) :
  length a = length s ->
  setitem_mask (reshape_col a) (map (map g) (reshape_col s)) v
  = Ok (reshape_col (zip_with (fun x y => if g y then v else x) a s)).
Proof.
  intros E. unfold setitem_mask, same_shape.
  rewrite length_map, !reshape_col_length, E, Nat.eqb_refl. simpl.
  assert (Hs : forallb (fun p : list F * list bool => length (fst p) =? length (snd p))
                 (combine (reshape_col a) (map (map g) (reshape_col s))) = true).
  { revert s E. induction a as [|x a IH]; intros [|y s] E; try discriminate.
    - reflexivity.
    - injection E as E. simpl. apply IH, E. }
  rewrite Hs. f_equal. clear Hs.
  revert s E. induction a as [|x a IH]; intros [|y s] E; try discriminate.
  - reflexivity.
  - injection E as E. simpl. f_equal. apply IH, E.
Qed.

Lemma per_candidate_2d (f : F -> F) (a : ndarray F) (l : list F) :
  per_candidate a l -> atleast_2d (nd_map f a) = reshape_col (map f l).
Proof.
  intros [-> | [-> E]]; simpl.
  - apply reshape_col_map.
  - destruct l as [|x [|y l]]; try discriminate. reflexivity.
Qed.

End Broadcasting.

(* ------------------------------------------------------------------ *)
(** ** The scorer, candidate by candidate *)

Section ScorerFacts.

Context {F : Type} `{Scalar F}.
Variables norm_cdf norm_pdf : F -> F.
Variables (X X_obs : matrix F) (gpr : GaussianProcessRegressor F).

(** With one posterior mean and one standard deviation per candidate, no
    line of the scorer raises and the result is the column of the
    candidates' scores. *)
Lemma expected_improvement_entries (Y_obs : ndarray F) (xi opt : F) (mu : list F) :
  per_candidate (predict_mean gpr X) mu ->
  length mu = length (predict_std gpr X) ->
  np_max (predict_mean gpr X_obs) = Ok opt ->
  expected_improvement norm_cdf norm_pdf X X_obs Y_obs gpr xi
  = Ok (Arr2 (reshape_col
               (zip_with (ei_entry norm_cdf norm_pdf opt xi) mu (predict_std gpr X)))).
Proof.
  intros Hmu Hlen Hopt. unfold expected_improvement.
  rewrite Hopt. cbn [rbind].
  rewrite (per_candidate_2d _ Hmu).
  set (imp := map (fun m => fsub (fsub m opt) xi) mu).
  set (sigma := predict_std gpr X) in *.
  assert (Hi : length imp = length sigma) by (unfold imp; now rewrite length_map).
  rewrite (broadcast2_col fdiv _ _ Hi). cbn [rbind].
  rewrite !reshape_col_map.
  set (Z := zip_with fdiv imp sigma).
  assert (HZ : length Z = length imp) by now apply zip_with_length.
  assert (Hl : length imp = length (map norm_cdf Z)) by now rewrite length_map.
  assert (Hr : length sigma = length (map norm_pdf Z))
    by (rewrite length_map; congruence).
  rewrite (broadcast2_col fmul _ _ Hl). cbn [rbind].
  rewrite (broadcast2_col fmul _ _ Hr). cbn [rbind].
  assert (Hlr : length (zip_with fmul imp (map norm_cdf Z))
                = length (zip_with fmul sigma (map norm_pdf Z)))
    by (rewrite !zip_with_length by assumption; assumption).
  rewrite (broadcast2_col fadd _ _ Hlr). cbn [rbind].
  rewrite setitem_mask_col
    by (rewrite !zip_with_length by assumption; assumption).
  cbn [rbind]. do 3 f_equal.
  clear HZ Hl Hr Hlr Hi Hmu Hopt. subst Z imp. revert Hlen. generalize sigma.
  induction mu as [|m mu' IH]; intros [|s sg] E; try discriminate.
  - reflexivity.
  - injection E as E. unfold zip_with in *. simpl. f_equal.
    apply (IH sg E).
Qed.

End ScorerFacts.

(* ------------------------------------------------------------------ *)
(** ** The order of binary64 *)

Ltac sf_compare :=
  repeat match goal with
  | H : context [Z.compare ?a ?b] |- _ => destruct (Z.compare_spec a b); subst
  | |- context [Z.compare ?a ?b] => destruct (Z.compare_spec a b); subst
  | H : context [Pos.compare_cont Eq ?a ?b] |- _ =>
      change (Pos.compare_cont Eq a b) with (Pos.compare a b) in H;
      destruct (Pos.compare_spec a b); subst
  | |- context [Pos.compare_cont Eq ?a ?b] =>
      change (Pos.compare_cont Eq a b) with (Pos.compare a b);
      destruct (Pos.compare_spec a b); subst
  end; simpl in *; try discriminate; try reflexivity; try lia.

Ltac sf_cases a b c :=
  destruct a as [[|]|[|]| |[|] ? ?], b as [[|]|[|]| |[|] ? ?], c as [[|]|[|]| |[|] ? ?];
  try discriminate; try reflexivity; intros; sf_compare.

Lemma SFltb_irrefl a : SFltb a a = false.
Proof.
  unfold SFltb, SFcompare. destruct a as [[|]|[|]| |[|] m e]; try reflexivity; sf_compare.
Qed.

Lemma SFltb_trans a b c :
  SFltb a b = true -> SFltb b c = true -> SFltb a c = true.
Proof. unfold SFltb, SFcompare. sf_cases a b c. Qed.

Lemma SFleb_SFltb_trans a b c :
  SFleb a b = true -> SFltb b c = true -> SFltb a c = true.
Proof. unfold SFltb, SFleb, SFcompare. sf_cases a b c. Qed.

(** Two numbers, of which the second is not below-or-equal the first:
    the first is below the second.  A NaN is not a number. *)
Lemma SFleb_false_SFltb a b :
  SFeqb a a = true -> SFeqb b b = true -> SFleb b a = false -> SFltb a b = true.
Proof.
  unfold SFltb, SFleb, SFeqb, SFcompare.
  destruct a as [[|]|[|]| |[|] ? ?], b as [[|]|[|]| |[|] ? ?];
    try discriminate; try reflexivity; intros; sf_compare.
Qed.

Lemma SFltb_number a b : SFltb a b = true -> SFeqb a a = true /\ SFeqb b b = true.
Proof.
  unfold SFltb, SFeqb, SFcompare.
  destruct a as [[|]|[|]| |[|] ? ?], b as [[|]|[|]| |[|] ? ?];
    try discriminate; intros; split; try reflexivity; sf_compare.
Qed.

Lemma SFltb_zero_neq s :
  SFltb (S754_zero false) s = true -> SFeqb s (S754_zero false) = false.
Proof.
  unfold SFltb, SFeqb, SFcompare.
  destruct s as [[|]|[|]| |[|] ? ?]; try discriminate; reflexivity.
Qed.

Module Binary64Facts.

Import Binary64.

Lemma ltb_nan_l (x : float) : PrimFloat.ltb nan x = false.
Proof. rewrite ltb_spec. reflexivity. Qed.

Lemma ltb_infinity_l (x : float) : PrimFloat.ltb infinity x = false.
Proof.
  rewrite ltb_spec. change (Prim2SF infinity) with (S754_infinity false).
  destruct (Prim2SF x) as [[|]|[|]| |[|] ? ?]; reflexivity.
Qed.

Lemma maximum_above (x y z : float) :
  PrimFloat.ltb (maximum x y) z = true ->
  PrimFloat.ltb x z = true /\ PrimFloat.ltb y z = true.
Proof.
  unfold maximum. rewrite !ltb_spec, leb_spec, eqb_spec.
  destruct (SFleb (Prim2SF y) (Prim2SF x)) eqn:Hle; simpl.
  - intros Hx. split; [assumption|]. eapply SFleb_SFltb_trans; eassumption.
  - destruct (SFeqb (Prim2SF x) (Prim2SF x)) eqn:Hx; simpl.
    + intros Hy. split; [|assumption].
      apply SFltb_trans with (Prim2SF y); [|assumption].
      apply SFleb_false_SFltb; try assumption.
      apply (SFltb_number _ _ Hy).
    + intros Hz. apply SFltb_number in Hz. destruct Hz as [Hz _]. congruence.
Qed.

#[export] Instance order : ScalarOrder float.
Proof.
  constructor; cbn [fltb fleb feqb fzero fmaximum scalar].
  - intros x. rewrite ltb_spec. apply SFltb_irrefl.
  - intros x y z. rewrite !ltb_spec. apply SFltb_trans.
  - intros x y z. rewrite !ltb_spec, leb_spec. apply SFleb_SFltb_trans.
  - intros s. rewrite ltb_spec, eqb_spec. apply SFltb_zero_neq.
  - intros x y. unfold maximum. destruct (_ || _)%bool; auto.
  - apply maximum_above.
Qed.

End Binary64Facts.

(* ------------------------------------------------------------------ *)
(** ** [np.max] returns a maximum *)

Section Maximum.

Context {F : Type} `{ScalarOrder F}.

Lemma fold_maximum (l : list F) (x : F) :
  In (fold_left fmaximum l x) (x :: l)
  /\ forall z, fltb (fold_left fmaximum l x) z = true ->
               forall y, In y (x :: l) -> fltb y z = true.
Proof.
  revert x. induction l as [|a l IH]; intros x.
  - simpl. split; [now left|]. intros z Hz y [<-|[]]. exact Hz.
  - cbn [fold_left]. destruct (IH (fmaximum x a)) as [Hin Hub]. split.
    + destruct Hin as [E|Hin].
      * rewrite <- E. destruct (fmaximum_cases x a) as [-> | ->];
          [now left | right; now left].
      * right. now right.
    + intros z Hz y Hy.
      pose proof (Hub z Hz) as Hall.
      assert (Hm : fltb (fmaximum x a) z = true) by (apply Hall; now left).
      apply fmaximum_above in Hm. destruct Hm as [Hx Ha].
      destruct Hy as [<-|[<-|Hy]]; try assumption.
      apply Hall. now right.
Qed.

(** The value of [np.max] is an element of the array, and no element is
    above it. *)
Lemma np_max_maximum (a : ndarray F) (v : F) :
  np_max a = Ok v ->
  In v (ravel a) /\ forall y, In y (ravel a) -> fltb v y = false.
Proof.
  unfold np_max. destruct (ravel a) as [|x l]; [discriminate|].
  intros [= <-]. destruct (fold_maximum l x) as [Hin Hub]. split; [exact Hin|].
  intros y Hy. destruct (fltb (fold_left fmaximum l x) y) eqn:E; [|reflexivity].
  pose proof (Hub y E y Hy) as Hyy. rewrite fltb_irrefl in Hyy. discriminate.
Qed.

End Maximum.

(* ------------------------------------------------------------------ *)
(** ** Claims about [expected_improvement] *)

Section ScorerClaims.

Context {F : Type} `{ScalarOrder F}.
Variables norm_cdf norm_pdf : F -> F.
Variables (X X_obs : matrix F) (gpr : GaussianProcessRegressor F).

(** C1.  Let the surrogate return one posterior mean and one standard
    deviation per candidate, and let [opt] be [np.max] of its predicted
    means at the observed inputs [X_obs]: an element of those predictions
    that none of them exceeds, whatever [Y_obs] holds.  Then at every
    candidate whose standard deviation [s] is positive the score is
    [imp * cdf (imp / s) + s * pdf (imp / s)] with [imp = m - opt - xi],
    [m] being the posterior mean there. *)
Theorem expected_improvement_closed_form
    (Y_obs : ndarray F) (xi opt : F) (mu : list F) (i : nat) (m s : F) :
  per_candidate (predict_mean gpr X) mu ->
  length mu = length (predict_std gpr X) ->
  np_max (predict_mean gpr X_obs) = Ok opt ->
  nth_error mu i = Some m ->
  nth_error (predict_std gpr X) i = Some s ->
  fltb fzero s = true ->
  (In opt (ravel (predict_mean gpr X_obs))
   /\ forall y, In y (ravel (predict_mean gpr X_obs)) -> fltb opt y = false)
  /\ exists ei,
       expected_improvement norm_cdf norm_pdf X X_obs Y_obs gpr xi = Ok (Arr2 ei)
       /\ nth_error ei i
          = Some [fadd (fmul (fsub (fsub m opt) xi)
                             (norm_cdf (fdiv (fsub (fsub m opt) xi) s)))
                       (fmul s (norm_pdf (fdiv (fsub (fsub m opt) xi) s)))].
Proof.
  intros Hmu Hlen Hopt Hm Hs Hpos. split.
  - now apply np_max_maximum.
  - exists (reshape_col (zip_with (ei_entry norm_cdf norm_pdf opt xi) mu (predict_std gpr X))).
    split.
    + apply expected_improvement_entries; assumption.
    + apply reshape_col_nth.
      rewrite (zip_with_nth _ _ _ _ Hm Hs).
      unfold ei_entry. now rewrite (fltb_zero_neq _ Hpos).
Qed.

(** C2.  With one posterior mean and one standard deviation per candidate,
    the scorer raises nothing, and candidate by candidate: where the
    standard deviation compares equal to [0.0] the score is [0.0], whatever
    the improvement; everywhere else it is the closed form. *)
Theorem expected_improvement_zero_sigma
    (Y_obs : ndarray F) (xi opt : F) (mu : list F) :
  per_candidate (predict_mean gpr X) mu ->
  length mu = length (predict_std gpr X) ->
  np_max (predict_mean gpr X_obs) = Ok opt ->
  exists ei,
    expected_improvement norm_cdf norm_pdf X X_obs Y_obs gpr xi = Ok (Arr2 ei)
    /\ forall i m s,
         nth_error mu i = Some m ->
         nth_error (predict_std gpr X) i = Some s ->
         (feqb s fzero = true -> nth_error ei i = Some [fzero])
         /\ (feqb s fzero = false ->
             nth_error ei i
             = Some [ei_formula norm_cdf norm_pdf (fsub (fsub m opt) xi) s]).
Proof.
  intros Hmu Hlen Hopt.
  exists (reshape_col (zip_with (ei_entry norm_cdf norm_pdf opt xi) mu (predict_std gpr X))).
  split.
  - apply expected_improvement_entries; assumption.
  - intros i m s Hm Hs.
    pose proof (reshape_col_nth _ _
                  (zip_with_nth (ei_entry norm_cdf norm_pdf opt xi) _ _ _ Hm Hs)) as E.
    unfold ei_entry in E at 2.
    split; intros Hz; rewrite Hz in E; exact E.
Qed.

(** C6, as the code has it.  For a batch of [m >= 1] candidates on which
    the surrogate returns [m] standard deviations and its [m] posterior
    means as a column of shape [(m, 1)], or as a vector when [m = 1], the
    scorer returns [m] rows, and the row of each candidate holds its one
    score: [0.0] where the deviation is [0.0], the closed form elsewhere. *)
Theorem expected_improvement_per_candidate
    (Y_obs : ndarray F) (xi opt : F) (mu : list F) :
  1 <= length X ->
  per_candidate (predict_mean gpr X) mu ->
  length mu = length X ->
  length (predict_std gpr X) = length X ->
  np_max (predict_mean gpr X_obs) = Ok opt ->
  exists ei,
    expected_improvement norm_cdf norm_pdf X X_obs Y_obs gpr xi = Ok (Arr2 ei)
    /\ length ei = length X
    /\ forall i, i < length X ->
         exists m s,
           nth_error mu i = Some m
           /\ nth_error (predict_std gpr X) i = Some s
           /\ nth_error ei i = Some [ei_entry norm_cdf norm_pdf opt xi m s].
Proof.
  intros _ Hmu Hlm Hls Hopt.
  exists (reshape_col (zip_with (ei_entry norm_cdf norm_pdf opt xi) mu (predict_std gpr X))).
  split; [|split].
  - apply expected_improvement_entries; [assumption|congruence|assumption].
  - rewrite reshape_col_length, zip_with_length; congruence.
  - intros i Hi.
    destruct (nth_error mu i) as [m|] eqn:Hm;
      [|apply nth_error_None in Hm; lia].
    destruct (nth_error (predict_std gpr X) i) as [s|] eqn:Hs;
      [|apply nth_error_None in Hs; lia].
    exists m, s. repeat split.
    apply reshape_col_nth. exact (zip_with_nth _ _ _ _ Hm Hs).
Qed.

(** C10.  The score does not depend on [Y_obs]: with the same candidates,
    observed inputs, surrogate and bias, any two values of [Y_obs] give
    the same result.  All that the scorer reads is the surrogate's
    predictions at [X] and at [X_obs]: two surrogates that agree on these
    give the same result too. *)
Theorem expected_improvement_ignores_Y_obs
    (Y1 Y2 : ndarray F) (gpr' : GaussianProcessRegressor F) (xi : F) :
  expected_improvement norm_cdf norm_pdf X X_obs Y1 gpr xi
  = expected_improvement norm_cdf norm_pdf X X_obs Y2 gpr xi
  /\ (predict_mean gpr X = predict_mean gpr' X ->
      predict_std gpr X = predict_std gpr' X ->
      predict_mean gpr X_obs = predict_mean gpr' X_obs ->
      expected_improvement norm_cdf norm_pdf X X_obs Y1 gpr xi
      = expected_improvement norm_cdf norm_pdf X X_obs Y2 gpr' xi).
Proof.
  split.
  - reflexivity.
  - intros Emu Esigma Esample. unfold expected_improvement.
    now rewrite Emu, Esigma, Esample.
Qed.

End ScorerClaims.

Module ScorerRuns.

Import Binary64 Binary64Facts.
Local Open Scope float_scope.

(** Three candidates, of which the second is the observed input. *)
Definition X : matrix float := [[0.5]; [1]; [2]].

Definition X_obs : matrix float := [[1]].

Definition xi : float := 0x1.47ae147ae147bp-7.

(** The theorems above, on these candidates. *)
Lemma expected_improvement_closed_form_witness :
  (In 1 (ravel (predict_mean Doubles.column_gpr X_obs))
   /\ forall y, In y (ravel (predict_mean Doubles.column_gpr X_obs)) ->
                fltb 1 y = false)
  /\ exists ei,
       expected_improvement Doubles.cdf Doubles.pdf X X_obs (Arr1 [1])
         Doubles.column_gpr xi = Ok (Arr2 ei)
       /\ nth_error ei 2
          = Some [fadd (fmul (fsub (fsub 2 1) xi)
                             (Doubles.cdf (fdiv (fsub (fsub 2 1) xi) 1)))
                       (fmul 1 (Doubles.pdf (fdiv (fsub (fsub 2 1) xi) 1)))].
Proof.
  apply (expected_improvement_closed_form Doubles.cdf Doubles.pdf X X_obs
           Doubles.column_gpr (Arr1 [1]) xi (mu := [0.5; 1; 2]) 2).
  - left. reflexivity.
  - reflexivity.
  - reflexivity.
  - reflexivity.
  - reflexivity.
  - reflexivity.
Defined.

Lemma expected_improvement_zero_sigma_witness :
  exists ei,
    expected_improvement Doubles.cdf Doubles.pdf X X_obs (Arr1 [1])
      Doubles.column_gpr xi = Ok (Arr2 ei)
    /\ forall i m s,
         nth_error [0.5; 1; 2] i = Some m ->
         nth_error (predict_std Doubles.column_gpr X) i = Some s ->
         (feqb s fzero = true -> nth_error ei i = Some [fzero])
         /\ (feqb s fzero = false ->
             nth_error ei i
             = Some [ei_formula Doubles.cdf Doubles.pdf (fsub (fsub m 1) xi) s]).
Proof.
  apply (expected_improvement_zero_sigma Doubles.cdf Doubles.pdf X X_obs
           Doubles.column_gpr (Arr1 [1]) xi (mu := [0.5; 1; 2])).
  - left. reflexivity.
  - reflexivity.
  - reflexivity.
Defined.

Lemma expected_improvement_per_candidate_witness :
  exists ei,
    expected_improvement Doubles.cdf Doubles.pdf X X_obs (Arr1 [1])
      Doubles.column_gpr xi = Ok (Arr2 ei)
    /\ length ei = length X
    /\ forall i, (i < length X)%nat ->
         exists m s,
           nth_error [0.5; 1; 2] i = Some m
           /\ nth_error (predict_std Doubles.column_gpr X) i = Some s
           /\ nth_error ei i = Some [ei_entry Doubles.cdf Doubles.pdf 1 xi m s].
Proof.
  apply (expected_improvement_per_candidate Doubles.cdf Doubles.pdf X X_obs
           Doubles.column_gpr (Arr1 [1]) xi (opt := 1) (mu := [0.5; 1; 2])).
  - simpl. lia.
  - left. reflexivity.
  - reflexivity.
  - reflexivity.
  - reflexivity.
Defined.

(** The run itself: the middle candidate, of deviation zero, scores zero;
    the other two score what the closed form gives. *)
Example expected_improvement_run :
  expected_improvement Doubles.cdf Doubles.pdf X X_obs (Arr1 [1])
    Doubles.column_gpr xi
  = Ok (Arr2 [[ei_formula Doubles.cdf Doubles.pdf (0.5 - 1 - xi) 0.5];
              [0];
              [ei_formula Doubles.cdf Doubles.pdf (2 - 1 - xi) 1]]).
Proof. reflexivity. Qed.

(** A vector of posterior means broadcasts against the column of
    deviations: one candidate gives the one score, as in
    [generate_parameters]; two candidates give a two-by-two array, which
    the mask of shape [(2, 1)] does not index. *)
Example expected_improvement_vector_one :
  expected_improvement Doubles.cdf Doubles.pdf [[2]] X_obs (Arr1 [1])
    Doubles.vector_gpr xi
  = Ok (Arr2 [[ei_formula Doubles.cdf Doubles.pdf (2 - 1 - xi) 1]]).
Proof. reflexivity. Qed.

(** C6: a batch of two candidates, two posterior means and two standard
    deviations, and no score: the call ends in the [IndexError] of
    line 64. *)
Lemma expected_improvement_vector_no_scores :
  length [[0.5]; [2]] = 2%nat
  /\ predict_mean Doubles.vector_gpr [[0.5]; [2]] = Arr1 [0.5; 2]
  /\ predict_std Doubles.vector_gpr [[0.5]; [2]] = [0.5; 1]
  /\ expected_improvement Doubles.cdf Doubles.pdf [[0.5]; [2]] X_obs (Arr1 [1])
       Doubles.vector_gpr xi
     = Raise IndexError.
Proof. repeat split. Qed.

End ScorerRuns.

(* ------------------------------------------------------------------ *)
(** ** The bias [xi] *)

Section ScorerBias.

Context {F : Type} `{Scalar F}.
Variables norm_cdf norm_pdf : F -> F.
Variables (X X_obs : matrix F) (gpr : GaussianProcessRegressor F).


End ScorerBias.

Module ScorerRounding.

Import Binary64 Binary64Facts.
Import Doubles.
Local Open Scope float_scope.

(** One candidate, at [0.94], next to the observed input [1]: posterior
    mean [0.94], deviation [0.06], incumbent [1]. *)
Definition mean : float := 0x1.e147ae147ae14p-1.

Definition X : matrix float := [[mean]].

Definition X_obs : matrix float := [[1]].

(** The default bias, [0.01], and the binary64 number that follows it. *)
Definition xi : float := 0x1.47ae147ae147bp-7.



(** An infinite bias gives an infinite improvement and quotient, at which
    the cdf and the pdf are zero: the score is a NaN, which is not below
    or equal to the score with the default bias. *)
Example expected_improvement_infinite_xi :
  expected_improvement normal_cdf normal_pdf X X_obs (Arr1 [1]) column_gpr infinity
  = Ok (Arr2 [[nan]])
  /\ PrimFloat.leb nan 0x1.d83b71e109434p-9 = false.
Proof. repeat split. Qed.


End ScorerRounding.

(* ------------------------------------------------------------------ *)
(** ** The proposer: sampling and the restart loop *)

Section ProposerFacts.

Context {F : Type} `{ScalarOrder F}.
Variable G : Type.
Variable uniform : F -> F -> G -> F * G.
Variable fit : matrix F -> ndarray F -> GaussianProcessRegressor F.
Variable minimize :
  (list F -> result (ndarray F)) -> list F -> list (F * F) -> result (OptimizeResult F).

Lemma uniform_row_draw (bs : list (F * F)) (w : world F G) :
  uniform_row uniform bs w
  = (Ok (fst (draw_row uniform bs (rng w))),
     {| rng := snd (draw_row uniform bs (rng w)); calls := calls w |}).
Proof.
  revert w. induction bs as [|[low high] bs IH]; intros [g cs].
  - reflexivity.
  - cbn [uniform_row draw_row]. unfold bind at 1, sample. cbn [rng calls].
    destruct (uniform low high g) as [x g1].
    unfold bind at 1. rewrite IH. cbn [rng calls].
    destruct (draw_row uniform bs g1) as [xs g2]. reflexivity.
Qed.

Lemma uniform_rows_draw (n : nat) (bs : list (F * F)) (w : world F G) :
  uniform_rows uniform n bs w
  = (Ok (fst (draw_rows uniform n bs (rng w))),
     {| rng := snd (draw_rows uniform n bs (rng w)); calls := calls w |}).
Proof.
  revert w. induction n as [|n IH]; intros [g cs].
  - reflexivity.
  - cbn [uniform_rows draw_rows]. unfold bind at 1. rewrite uniform_row_draw.
    cbn [rng calls]. destruct (draw_row uniform bs g) as [r g1].
    unfold bind at 1. rewrite IH. cbn [rng calls fst snd].
    destruct (draw_rows uniform n bs g1) as [rs g2]. reflexivity.
Qed.

Lemma draw_rows_length (n : nat) (bs : list (F * F)) (g : G) :
  length (fst (draw_rows uniform n bs g)) = n.
Proof.
  revert g. induction n as [|n IH]; intros g; [reflexivity|].
  cbn [draw_rows]. destruct (draw_row uniform bs g) as [r g1].
  specialize (IH g1). destruct (draw_rows uniform n bs g1) as [rs g2].
  simpl in *. now rewrite IH.
Qed.

Lemma draw_row_in_bounds (bs : list (F * F)) (g : G) :
  uniform_contract uniform -> valid_bounds bs ->
  in_bounds (fst (draw_row uniform bs g)) bs.
Proof.
  intros Hu Hv. revert g. induction Hv as [|[low high] bs Hb Hv IH]; intros g.
  - constructor.
  - cbn [draw_row]. pose proof (Hu low high g Hb) as Hx.
    destruct (uniform low high g) as [x g1].
    specialize (IH g1). destruct (draw_row uniform bs g1) as [xs g2].
    constructor; assumption.
Qed.

Lemma uniform_matrix_draw (bs : list (F * F)) (n dim : nat) (w : world F G) :
  bs <> [] -> length bs = dim ->
  uniform_matrix uniform bs n dim w
  = (Ok (fst (draw_rows uniform n bs (rng w))),
     {| rng := snd (draw_rows uniform n bs (rng w)); calls := calls w |}).
Proof.
  intros Hne Hdim. unfold uniform_matrix, bind, columns.
  destruct bs as [|b bs]; [congruence|]. unfold ret.
  rewrite Hdim, Nat.eqb_refl. apply uniform_rows_draw.
Qed.

(** *** The loop when the optimizer returns on every start *)

Lemma run_all_returns objective bs starts results :
  run_all minimize objective bs starts = Ok results ->
  returns minimize objective bs starts results.
Proof.
  unfold run_all, returns. revert results.
  induction starts as [|x0 starts IH]; intros results; cbn [mapM].
  - intros [= <-]. constructor.
  - destruct (minimize objective x0 bs) as [res|e] eqn:Hres; [|discriminate].
    cbn [rbind]. destruct (mapM _ starts) as [rs|e]; [|discriminate].
    cbn [rbind]. intros [= <-]. constructor; [exact Hres|]. now apply IH.
Qed.

Lemma fun_item_array (res : OptimizeResult F) :
  res_ndim res <> 0 -> fun_item res = Ok (res_fun res).
Proof. unfold fun_item. destruct (res_ndim res); [congruence|reflexivity]. Qed.

Lemma fun_item_scalar (res : OptimizeResult F) :
  res_ndim res = 0 -> fun_item res = Raise TypeError.
Proof. unfold fun_item. now intros ->. Qed.

(** A result that unwraps below [min_val] unwraps below anything lower. *)
Lemma unwraps_below (results : list (OptimizeResult F)) (v min_val : F) :
  fltb v min_val = true ->
  Forall (fun res => fltb (res_fun res) min_val = true -> res_ndim res <> 0) results ->
  Forall (fun res => fltb (res_fun res) v = true -> res_ndim res <> 0) results.
Proof.
  intros Hv. apply Forall_impl. intros res Hres Hlt.
  apply Hres. exact (fltb_trans _ _ _ Hlt Hv).
Qed.

Lemma restarts_returns objective bs starts results min_val min_x (w : world F G) :
  returns minimize objective bs starts results ->
  Forall (fun res => fltb (res_fun res) min_val = true -> res_ndim res <> 0) results ->
  restarts minimize objective bs starts min_val min_x w
  = (Ok (fold_left keep results (min_val, min_x)),
     {| rng := rng w; calls := calls w ++ map (@EvMinimize F) starts |}).
Proof.
  intros Hr. revert min_val min_x w.
  induction Hr as [|x0 res starts results Hx Hr IH]; intros min_val min_x [g cs] Hu.
  - cbn. now rewrite app_nil_r.
  - inversion Hu as [|? ? Hres Hrest]; subst.
    cbn [restarts]. unfold bind at 1, log. cbn [rng calls].
    unfold bind at 1, lift. rewrite Hx. cbn [fold_left map].
    unfold keep at 2. cbn [fst].
    destruct (fltb (res_fun res) min_val) eqn:Hlt.
    + unfold bind at 1. rewrite (fun_item_array _ (Hres eq_refl)).
      rewrite IH by exact (@unwraps_below _ _ _ Hlt Hrest).
      cbn [rng calls]. now rewrite <- app_assoc.
    + rewrite IH by exact Hrest. cbn [rng calls]. now rewrite <- app_assoc.
Qed.

(** Values that all come in arrays: the order of the numbers plays no
    part. *)
Lemma restarts_arrays objective bs starts results min_val min_x (w : world F G) :
  returns minimize objective bs starts results ->
  Forall (fun res => res_ndim res <> 0) results ->
  restarts minimize objective bs starts min_val min_x w
  = (Ok (fold_left keep results (min_val, min_x)),
     {| rng := rng w; calls := calls w ++ map (@EvMinimize F) starts |}).
Proof.
  intros Hr. revert min_val min_x w.
  induction Hr as [|x0 res starts results Hx Hr IH]; intros min_val min_x [g cs] Ha.
  - cbn. now rewrite app_nil_r.
  - inversion Ha as [|? ? Hres Hrest]; subst.
    cbn [restarts]. unfold bind at 1, log. cbn [rng calls].
    unfold bind at 1, lift. rewrite Hx. cbn [fold_left map].
    unfold keep at 2. cbn [fst].
    destruct (fltb (res_fun res) min_val).
    + unfold bind at 1. rewrite (fun_item_array _ Hres).
      rewrite IH by exact Hrest. cbn [rng calls]. now rewrite <- app_assoc.
    + rewrite IH by exact Hrest. cbn [rng calls]. now rewrite <- app_assoc.
Qed.

(** No value below the sentinel: line 114 is not reached, and the loop
    ends as it started. *)
Lemma restarts_none_below objective bs starts results min_x (w : world F G) :
  returns minimize objective bs starts results ->
  Forall (fun res => fltb (res_fun res) float_max = false) results ->
  restarts minimize objective bs starts float_max min_x w
  = (Ok (float_max, min_x),
     {| rng := rng w; calls := calls w ++ map (@EvMinimize F) starts |}).
Proof.
  intros Hr. revert w.
  induction Hr as [|x0 res starts results Hx Hr IH]; intros [g cs] Hfail.
  - cbn. now rewrite app_nil_r.
  - inversion Hfail as [|? ? Hres Hrest]; subst.
    cbn [restarts]. unfold bind at 1, log. cbn [rng calls].
    unfold bind at 1, lift. rewrite Hx, Hres, IH by exact Hrest.
    cbn [rng calls map]. now rewrite <- app_assoc.
Qed.

(** *** The loop when the optimizer raises *)

Lemma restarts_raises objective bs before x0 after results e min_val min_x
    (w : world F G) :
  returns minimize objective bs before results ->
  Forall (fun res => fltb (res_fun res) min_val = true -> res_ndim res <> 0) results ->
  minimize objective x0 bs = Raise e ->
  restarts minimize objective bs (before ++ x0 :: after) min_val min_x w
  = (Raise e,
     {| rng := rng w; calls := calls w ++ map (@EvMinimize F) (before ++ [x0]) |}).
Proof.
  intros Hr Hu He. revert min_val min_x w Hu.
  induction Hr as [|y res before results Hy Hr IH]; intros min_val min_x [g cs] Hu.
  - cbn [app restarts]. unfold bind at 1, log. cbn [rng calls].
    unfold bind at 1, lift. now rewrite He.
  - inversion Hu as [|? ? Hres Hrest]; subst.
    cbn [app restarts]. unfold bind at 1, log. cbn [rng calls].
    unfold bind at 1, lift. rewrite Hy.
    destruct (fltb (res_fun res) min_val) eqn:Hlt.
    + unfold bind at 1. rewrite (fun_item_array _ (Hres eq_refl)).
      rewrite IH by exact (@unwraps_below _ _ _ Hlt Hrest).
      cbn [rng calls map app]. now rewrite <- app_assoc.
    + rewrite IH by exact Hrest. cbn [rng calls map app]. now rewrite <- app_assoc.
Qed.

(** *** The loop when [res.fun] is a plain number *)

(** After restarts on which line 114 did not raise, a restart whose value
    is a plain number below the best so far ends the loop in the
    [TypeError] of [res.fun[0]]. *)
Lemma restarts_type_error objective bs before x0 after results res min_val min_x
    (w : world F G) :
  returns minimize objective bs before results ->
  Forall (fun r => fltb (res_fun r) min_val = true -> res_ndim r <> 0) results ->
  minimize objective x0 bs = Ok res ->
  fltb (res_fun res) (fst (fold_left keep results (min_val, min_x))) = true ->
  res_ndim res = 0 ->
  restarts minimize objective bs (before ++ x0 :: after) min_val min_x w
  = (Raise TypeError,
     {| rng := rng w; calls := calls w ++ map (@EvMinimize F) (before ++ [x0]) |}).
Proof.
  intros Hr Hu Hx0 Hlow Hscalar. revert min_val min_x w Hu Hlow.
  induction Hr as [|y r before results Hy Hr IH]; intros min_val min_x [g cs] Hu Hlow.
  - cbn [fold_left fst] in Hlow.
    cbn [app restarts]. unfold bind at 1, log. cbn [rng calls].
    unfold bind at 1, lift. rewrite Hx0, Hlow.
    unfold bind at 1. now rewrite (fun_item_scalar _ Hscalar).
  - inversion Hu as [|? ? Hres Hrest]; subst.
    cbn [fold_left] in Hlow. unfold keep at 2 in Hlow. cbn [fst] in Hlow.
    cbn [app restarts]. unfold bind at 1, log. cbn [rng calls].
    unfold bind at 1, lift. rewrite Hy.
    destruct (fltb (res_fun r) min_val) eqn:Hlt.
    + unfold bind at 1. rewrite (fun_item_array _ (Hres eq_refl)).
      rewrite IH; [|exact (@unwraps_below _ _ _ Hlt Hrest)|exact Hlow].
      cbn [rng calls map app]. now rewrite <- app_assoc.
    + rewrite IH; [|exact Hrest|exact Hlow].
      cbn [rng calls map app]. now rewrite <- app_assoc.
Qed.

(** *** What the loop keeps *)

Lemma kept_step seen best res :
  kept seen best -> kept (seen ++ [res]) (keep best res).
Proof.
  intros [Hlow Hloc]. unfold keep.
  destruct (fltb (res_fun res) (fst best)) eqn:Hlt.
  - split; cbn [fst snd].
    + intros r Hr. apply in_app_or in Hr. destruct Hr as [Hr|[<-|[]]].
      * destruct (fltb (res_fun r) (res_fun res)) eqn:E; [|reflexivity].
        pose proof (Hlow r Hr) as Hc.
        rewrite (fltb_trans _ _ _ E Hlt) in Hc. discriminate Hc.
      * apply fltb_irrefl.
    + exists (length seen), res. repeat split.
      * now rewrite nth_error_app2, Nat.sub_diag by lia.
      * destruct (snd best) as [x|].
        -- destruct Hloc as (i & r & _ & _ & _ & Hb & _).
           exact (fltb_trans _ _ _ Hlt Hb).
        -- now rewrite <- Hloc.
      * intros j r Hj Hr. rewrite nth_error_app1 in Hr by exact Hj.
        apply nth_error_In in Hr.
        destruct (fleb (res_fun r) (res_fun res)) eqn:E; [|reflexivity].
        pose proof (Hlow r Hr) as Hc.
        rewrite (fleb_fltb_trans _ _ _ E Hlt) in Hc. discriminate Hc.
  - split.
    + intros r Hr. apply in_app_or in Hr. destruct Hr as [Hr|[<-|[]]]; auto.
    + destruct (snd best) as [x|]; [|exact Hloc].
      destruct Hloc as (i & r & Hi & Hx & Hf & Hb & Hbefore).
      exists i, r. repeat split; try assumption.
      * rewrite nth_error_app1; [assumption|].
        apply nth_error_Some. congruence.
      * intros j r' Hj Hr'. apply (Hbefore j r' Hj).
        rewrite nth_error_app1 in Hr'; [assumption|].
        assert (i < length seen) by (apply nth_error_Some; congruence). lia.
Qed.

Lemma kept_fold results seen best :
  kept seen best -> kept (seen ++ results) (fold_left keep results best).
Proof.
  revert seen best. induction results as [|res results IH]; intros seen best Hk.
  - now rewrite app_nil_r.
  - cbn [fold_left].
    replace (seen ++ res :: results) with ((seen ++ [res]) ++ results)
      by now rewrite <- app_assoc.
    apply IH, kept_step, Hk.
Qed.

Lemma kept_all results :
  kept results (fold_left keep results (float_max, None)).
Proof.
  apply (kept_fold results (seen := [])). split; [intros ? []|reflexivity].
Qed.

(** A result below the sentinel leaves a location. *)
Lemma fold_keep_some results best :
  (snd best <> None \/ (fst best = float_max
     /\ Exists (fun res => fltb (res_fun res) float_max = true) results)) ->
  snd (fold_left keep results best) <> None.
Proof.
  revert best. induction results as [|res results IH]; intros best Hb.
  - destruct Hb as [Hb|[_ Hb]]; [exact Hb|inversion Hb].
  - cbn [fold_left]. apply IH. unfold keep.
    destruct Hb as [Hb|[Hm Hb]].
    + left. destruct (fltb (res_fun res) (fst best)); [discriminate|exact Hb].
    + rewrite Hm. inversion Hb as [? ? Hres|? ? Hrest]; subst.
      * rewrite Hres. left. discriminate.
      * destruct (fltb (res_fun res) float_max); [left; discriminate|].
        right. split; assumption.
Qed.

(** No result below the sentinel leaves none. *)
Lemma fold_keep_none results :
  Forall (fun res => fltb (res_fun res) float_max = false) results ->
  fold_left keep results (float_max, None) = (float_max, None).
Proof.
  induction 1 as [|res results Hres _ IH]; [reflexivity|].
  cbn [fold_left]. unfold keep at 2. cbn [fst]. now rewrite Hres.
Qed.

(** Results none of which is below the sentinel all unwrap. *)
Lemma unwraps_none_below results :
  Forall (fun res => fltb (res_fun res) float_max = false) results ->
  Forall unwraps results.
Proof.
  apply Forall_impl. intros res Hres. unfold unwraps. now rewrite Hres.
Qed.

Lemma forallb_unwraps results :
  forallb (fun res => negb (fltb (res_fun res) float_max) || negb (res_ndim res =? 0))
    results = true ->
  Forall unwraps results.
Proof.
  intros E. apply Forall_forall. intros res Hres Hlt.
  rewrite forallb_forall in E. specialize (E res Hres).
  rewrite Hlt in E. cbn [negb orb] in E.
  intros Hz. rewrite Hz in E. discriminate E.
Qed.

(** The first element with a property, and those before it. *)
Lemma Exists_first {A} (p : A -> bool) (l : list A) :
  Exists (fun x => p x = true) l ->
  exists before x after,
    l = before ++ x :: after
    /\ Forall (fun y => p y = false) before /\ p x = true.
Proof.
  induction 1 as [x l Hx|y l _ IH].
  - exists [], x, l. repeat split; [constructor|exact Hx].
  - destruct (p y) eqn:Hy.
    + exists [], y, l. repeat split; [constructor|exact Hy].
    + destruct IH as (before & x & after & -> & Hb & Hx).
      exists (y :: before), x, after. repeat split; [now constructor|exact Hx].
Qed.

End ProposerFacts.

(* ------------------------------------------------------------------ *)
(** ** Claims about [generate_parameters] *)

Section ProposerClaims.

Context {F : Type} `{ScalarOrder F}.
Variable G : Type.
Variable uniform : F -> F -> G -> F * G.
Variable fit : matrix F -> ndarray F -> GaussianProcessRegressor F.
Variable minimize :
  (list F -> result (ndarray F)) -> list F -> list (F * F) -> result (OptimizeResult F).
Variable acquisition :
  matrix F -> matrix F -> ndarray F -> GaussianProcessRegressor F -> result (ndarray F).
Variables (X_obs : matrix F) (Y_obs : list F) (bounds : list (F * F)).

(** The objective of line 108, the starting points of line 111 and the
    world in which the loop starts, for a call in the world [w]. *)
Local Abbreviation objective :=
  (min_obj acquisition X_obs (Arr1 Y_obs) (fit X_obs (Arr1 Y_obs)) (shape1 X_obs)).

Local Abbreviation starts w := (fst (draw_rows uniform n_restarts bounds (rng w))).

Local Abbreviation at_loop w :=
  {| rng := snd (draw_rows uniform n_restarts bounds (rng w));
     calls := calls w ++ [EvFit X_obs (Arr1 Y_obs)] |}.

Lemma generate_parameters_cold (w : world F G) :
  np_size X_obs = 0 -> bounds <> [] ->
  generate_parameters uniform fit minimize acquisition X_obs Y_obs bounds w
  = (Ok (fst (draw_row uniform bounds (rng w))),
     {| rng := snd (draw_row uniform bounds (rng w)); calls := calls w |}).
Proof.
  intros Hsize Hne. unfold generate_parameters. rewrite Hsize. cbn [Nat.eqb].
  unfold bind, columns. destruct bounds as [|b bs] eqn:E; [congruence|].
  unfold ret. apply uniform_row_draw.
Qed.

Lemma generate_parameters_warm (w : world F G) :
  np_size X_obs <> 0 -> bounds <> [] -> length bounds = shape1 X_obs ->
  generate_parameters uniform fit minimize acquisition X_obs Y_obs bounds w
  = match restarts minimize objective bounds (starts w) float_max None (at_loop w) with
    | (Ok best, w') =>
        match snd best with
        | None => (Raise AttributeError, w')
        | Some x => (Ok x, w')
        end
    | (Raise e, w') => (Raise e, w')
    end.
Proof.
  intros Hsize Hne Hdim. unfold generate_parameters.
  rewrite (proj2 (Nat.eqb_neq _ _) Hsize).
  unfold bind at 1, log. unfold bind at 1.
  rewrite (uniform_matrix_draw uniform n_restarts _ Hne Hdim). cbn [rng calls].
  unfold bind at 1.
  destruct (restarts minimize objective bounds (starts w) float_max None (at_loop w))
    as [[best|e] w']; [|reflexivity].
  destruct (snd best); reflexivity.
Qed.

Lemma generate_parameters_returns (w : world F G) results :
  np_size X_obs <> 0 -> bounds <> [] -> length bounds = shape1 X_obs ->
  returns minimize objective bounds (starts w) results ->
  Forall unwraps results ->
  generate_parameters uniform fit minimize acquisition X_obs Y_obs bounds w
  = (match snd (fold_left keep results (float_max, None)) with
     | None => Raise AttributeError
     | Some x => Ok x
     end,
     {| rng := rng (at_loop w);
        calls := calls w ++ EvFit X_obs (Arr1 Y_obs) :: map (@EvMinimize F) (starts w) |}).
Proof.
  intros Hsize Hne Hdim Hr Hu.
  rewrite (generate_parameters_warm w Hsize Hne Hdim).
  rewrite (restarts_returns float_max None (at_loop w) Hr Hu).
  cbv beta iota. cbn [rng calls]. rewrite <- app_assoc. cbn [app].
  destruct (snd (fold_left keep results (float_max, None))); reflexivity.
Qed.

Lemma generate_parameters_returns_arrays (w : world F G) results :
  np_size X_obs <> 0 -> bounds <> [] -> length bounds = shape1 X_obs ->
  returns minimize objective bounds (starts w) results ->
  Forall (fun res => res_ndim res <> 0) results ->
  generate_parameters uniform fit minimize acquisition X_obs Y_obs bounds w
  = (match snd (fold_left keep results (float_max, None)) with
     | None => Raise AttributeError
     | Some x => Ok x
     end,
     {| rng := rng (at_loop w);
        calls := calls w ++ EvFit X_obs (Arr1 Y_obs) :: map (@EvMinimize F) (starts w) |}).
Proof.
  intros Hsize Hne Hdim Hr Ha.
  rewrite (generate_parameters_warm w Hsize Hne Hdim).
  rewrite (restarts_arrays float_max None (at_loop w) Hr Ha).
  cbv beta iota. cbn [rng calls]. rewrite <- app_assoc. cbn [app].
  destruct (snd (fold_left keep results (float_max, None))); reflexivity.
Qed.

(** An exception of the optimizer ends the call. *)
Lemma generate_parameters_raises (w : world F G) before x0 after results e :
  np_size X_obs <> 0 -> bounds <> [] -> length bounds = shape1 X_obs ->
  starts w = before ++ x0 :: after ->
  returns minimize objective bounds before results ->
  Forall unwraps results ->
  minimize objective x0 bounds = Raise e ->
  generate_parameters uniform fit minimize acquisition X_obs Y_obs bounds w
  = (Raise e,
     {| rng := rng (at_loop w);
        calls := calls w ++ EvFit X_obs (Arr1 Y_obs)
                         :: map (@EvMinimize F) (before ++ [x0]) |}).
Proof.
  intros Hsize Hne Hdim Hs Hr Hu He.
  rewrite (generate_parameters_warm w Hsize Hne Hdim).
  rewrite Hs, (restarts_raises x0 after float_max None (at_loop w) Hr Hu He).
  cbn [rng calls]. rewrite <- app_assoc. reflexivity.
Qed.

(** So does the subscript of a plain number. *)
Lemma generate_parameters_type_error (w : world F G) before x0 after results res :
  np_size X_obs <> 0 -> bounds <> [] -> length bounds = shape1 X_obs ->
  starts w = before ++ x0 :: after ->
  returns minimize objective bounds before results ->
  Forall unwraps results ->
  minimize objective x0 bounds = Ok res ->
  fltb (res_fun res) (fst (fold_left keep results (float_max, None))) = true ->
  res_ndim res = 0 ->
  generate_parameters uniform fit minimize acquisition X_obs Y_obs bounds w
  = (Raise TypeError,
     {| rng := rng (at_loop w);
        calls := calls w ++ EvFit X_obs (Arr1 Y_obs)
                         :: map (@EvMinimize F) (before ++ [x0]) |}).
Proof.
  intros Hsize Hne Hdim Hs Hr Hu Hx0 Hlow Hscalar.
  rewrite (generate_parameters_warm w Hsize Hne Hdim).
  rewrite Hs, (restarts_type_error x0 after float_max None (at_loop w) Hr Hu Hx0 Hlow Hscalar).
  cbn [rng calls]. rewrite <- app_assoc. reflexivity.
Qed.

Lemma restarts_in_bounds sts min_val min_x (w w' : world F G) best :
  respects_bounds minimize -> valid_bounds bounds ->
  restarts minimize objective bounds sts min_val min_x w = (Ok best, w') ->
  (forall x, min_x = Some x -> in_bounds x bounds) ->
  forall x, snd best = Some x -> in_bounds x bounds.
Proof.
  intros Hm Hv. revert min_val min_x w.
  induction sts as [|x0 sts IH]; intros min_val min_x w Hrun Hin.
  - cbn in Hrun. injection Hrun as <- _. exact Hin.
  - cbn [restarts] in Hrun. unfold bind at 1, log in Hrun.
    unfold bind at 1, lift in Hrun.
    destruct (minimize objective x0 bounds) as [res|e] eqn:Hres; [|discriminate].
    destruct (fltb (res_fun res) min_val).
    + unfold bind at 1, lift in Hrun.
      destruct (fun_item res) as [v|e]; [|discriminate].
      apply (IH _ _ _ Hrun). intros x [= <-]. exact (Hm _ _ _ _ Hv Hres).
    + apply (IH _ _ _ Hrun Hin).
Qed.

(** C3, as the code has it.  With observations, when the optimizer returns
    on each of the restarts and no objective value is below
    [sys.float_info.max], the call returns no location: [min_x] is still
    [None] and [min_x.tolist()] raises [AttributeError]. *)
Theorem generate_parameters_no_candidate (w : world F G) results :
  np_size X_obs <> 0 -> bounds <> [] -> length bounds = shape1 X_obs ->
  returns minimize objective bounds (starts w) results ->
  Forall (fun res => fltb (res_fun res) float_max = false) results ->
  fst (generate_parameters uniform fit minimize acquisition X_obs Y_obs bounds w)
  = Raise AttributeError.
Proof.
  intros Hsize Hne Hdim Hr Hfail.
  rewrite (generate_parameters_warm w Hsize Hne Hdim).
  now rewrite (restarts_none_below None (at_loop w) Hr Hfail).
Qed.

(** C4.  With observations, valid bounds and an optimizer that respects its
    box: a location that the call returns is within the bounds in every
    dimension; and the call does return one when the optimizer returns on
    each restart, with its objective value in an array as line 114 takes
    it, and some objective value is below the sentinel. *)
Theorem generate_parameters_within_bounds (w : world F G) :
  np_size X_obs <> 0 -> valid_bounds bounds -> respects_bounds minimize ->
  (forall loc w',
     generate_parameters uniform fit minimize acquisition X_obs Y_obs bounds w
     = (Ok loc, w') ->
     in_bounds loc bounds)
  /\ (forall results,
        bounds <> [] -> length bounds = shape1 X_obs ->
        returns minimize objective bounds (starts w) results ->
        Forall (fun res => res_ndim res <> 0) results ->
        Exists (fun res => fltb (res_fun res) float_max = true) results ->
        exists loc w',
          generate_parameters uniform fit minimize acquisition X_obs Y_obs bounds w
          = (Ok loc, w')
          /\ in_bounds loc bounds).
Proof.
  intros Hsize Hv Hm.
  assert (Hsafe : forall loc w',
             generate_parameters uniform fit minimize acquisition X_obs Y_obs bounds w
             = (Ok loc, w') -> in_bounds loc bounds).
  { intros loc w'. unfold generate_parameters.
    rewrite (proj2 (Nat.eqb_neq _ _) Hsize).
    unfold bind at 1, log. unfold bind at 1.
    destruct (uniform_matrix uniform bounds n_restarts (shape1 X_obs) _)
      as [[sts|e] w1]; [|discriminate].
    unfold bind at 1.
    destruct (restarts minimize objective bounds sts float_max None w1)
      as [[best|e] w2] eqn:Hrun; [|discriminate].
    destruct (snd best) as [x|] eqn:Hx; [|discriminate].
    unfold ret. intros [= <- _].
    eapply restarts_in_bounds;
      [exact Hm|exact Hv|exact Hrun|discriminate|exact Hx]. }
  split; [exact Hsafe|].
  intros results Hne Hdim Hr Ha Hsome.
  pose proof (generate_parameters_returns_arrays w Hsize Hne Hdim Hr Ha) as Hrun.
  assert (Hloc : snd (fold_left keep results (float_max, None)) <> None)
    by (apply fold_keep_some; right; split; [reflexivity|exact Hsome]).
  destruct (snd (fold_left keep results (float_max, None))) as [x|]; [|congruence].
  exists x. eexists. split; [exact Hrun|]. apply (Hsafe _ _ Hrun).
Qed.

End ProposerClaims.

(** C5.  Without observations, and with bounds of which there is at least
    one pair, each with its lower bound at most its upper bound: whatever
    the acquisition function, the regressor and the optimizer, the call
    makes no call to any of them and returns one sample of
    [np.random.uniform] per pair of bounds, each within its pair. *)
Theorem generate_parameters_cold_start
    {F : Type} `{Scalar F} (G : Type) (uniform : F -> F -> G -> F * G)
    (X_obs : matrix F) (Y_obs : list F) (bounds : list (F * F)) (w : world F G) :
  np_size X_obs = 0 -> bounds <> [] -> valid_bounds bounds ->
  uniform_contract uniform ->
  (forall fit minimize acquisition,
     generate_parameters uniform fit minimize acquisition X_obs Y_obs bounds w
     = (Ok (fst (draw_row uniform bounds (rng w))),
        {| rng := snd (draw_row uniform bounds (rng w)); calls := calls w |}))
  /\ length (fst (draw_row uniform bounds (rng w))) = length bounds
  /\ in_bounds (fst (draw_row uniform bounds (rng w))) bounds.
Proof.
  intros Hsize Hne Hv Hu.
  assert (Hin : in_bounds (fst (draw_row uniform bounds (rng w))) bounds)
    by now apply draw_row_in_bounds.
  split; [|split].
  - intros fit minimize acquisition. now apply generate_parameters_cold.
  - apply (Forall2_length Hin).
  - exact Hin.
Qed.

(* ------------------------------------------------------------------ *)
(** ** binary64: restarts that yield NaN or an infinite value *)

Lemma SFleb_refl_of a b : SFleb a b = true -> SFleb a a = true /\ SFleb b b = true.
Proof.
  unfold SFleb, SFcompare.
  destruct a as [[|]|[|]| |[|] ? ?], b as [[|]|[|]| |[|] ? ?];
    try discriminate; intros; split; try reflexivity; sf_compare.
Qed.

Lemma SFeqb_irrefl_nan a : SFeqb a a = false -> a = S754_nan.
Proof.
  unfold SFeqb, SFcompare.
  destruct a as [[|]|[|]| |[|] ? ?]; try discriminate; try reflexivity;
    intros; sf_compare.
Qed.

Lemma existsb_Exists {A} (f : A -> bool) (l : list A) :
  existsb f l = true -> Exists (fun x => f x = true) l.
Proof.
  intros E. apply Exists_exists. apply existsb_exists in E. exact E.
Qed.

Lemma forallb_Forall_false {A} (f : A -> bool) (l : list A) :
  forallb (fun x => negb (f x)) l = true -> Forall (fun x => f x = false) l.
Proof.
  intros E. apply Forall_forall. intros x Hx.
  rewrite forallb_forall in E. apply negb_true_iff, E, Hx.
Qed.

Module ProposerFloat.

Import Binary64 Binary64Facts.

Lemma leb_refl_of (a b : float) :
  PrimFloat.leb a b = true -> PrimFloat.leb a a = true /\ PrimFloat.leb b b = true.
Proof. rewrite !leb_spec. apply SFleb_refl_of. Qed.

(** A value below [sys.float_info.max] is a number, and not plus
    infinity. *)
Lemma below_sentinel (v : float) :
  fltb v float_max = true -> is_nan v = false /\ v <> infinity.
Proof.
  cbn [fltb scalar]. intros Hv. split.
  - unfold is_nan. rewrite eqb_spec. rewrite ltb_spec in Hv.
    apply SFltb_number in Hv. destruct Hv as [-> _]. reflexivity.
  - intros ->. rewrite ltb_infinity_l in Hv. discriminate.
Qed.

Lemma is_nan_eq (x : float) : is_nan x = true -> x = nan.
Proof.
  unfold is_nan. rewrite eqb_spec. intros Hx. apply negb_true_iff in Hx.
  apply Prim2SF_inj. now rewrite (SFeqb_irrefl_nan _ Hx).
Qed.

Section Restarts.

Variable G : Type.
Variable uniform : float -> float -> G -> float * G.
Variable fit : matrix float -> ndarray float -> GaussianProcessRegressor float.
Variable minimize :
  (list float -> result (ndarray float)) -> list float -> list (float * float) ->
  result (OptimizeResult float).
Variable acquisition :
  matrix float -> matrix float -> ndarray float -> GaussianProcessRegressor float ->
  result (ndarray float).
Variables (X_obs : matrix float) (Y_obs : list float) (bounds : list (float * float)).

Local Abbreviation objective :=
  (min_obj acquisition X_obs (Arr1 Y_obs) (fit X_obs (Arr1 Y_obs)) (shape1 X_obs)).

Local Abbreviation starts w := (fst (draw_rows uniform n_restarts bounds (rng w))).

(** C7, as the code has it.  With observations and binary64 numbers:

    - a restart whose objective value is a NaN or plus infinity is not
      below the best so far, whatever that is: the loop leaves the best
      value and location as they were and goes on with the next start;
    - when the optimizer returns on each restart, some objective value is
      below the sentinel and line 114 can unwrap the values that are, all
      25 restarts run and the location returned is that of a restart
      whose value is neither NaN nor plus infinity;
    - when the optimizer raises on a restart, after restarts on which it
      returned values that line 114 could unwrap, the call ends there in
      that exception;
    - when the optimizer returns, after such restarts, a plain number
      below the best value so far, the call ends there in the [TypeError]
      of [res.fun[0]]. *)
Theorem generate_parameters_failed_restarts (w : world float G) :
  np_size X_obs <> 0 -> bounds <> [] -> length bounds = shape1 X_obs ->
  (forall obj x0 sts res min_val min_x (w1 : world float G),
     minimize obj x0 bounds = Ok res ->
     is_nan (res_fun res) = true \/ res_fun res = infinity ->
     restarts minimize obj bounds (x0 :: sts) min_val min_x w1
     = restarts minimize obj bounds sts min_val min_x
         {| rng := rng w1; calls := calls w1 ++ [EvMinimize x0] |})
  /\ (forall results,
        returns minimize objective bounds (starts w) results ->
        Forall unwraps results ->
        Exists (fun res => fltb (res_fun res) float_max = true) results ->
        exists loc w' res,
          generate_parameters uniform fit minimize acquisition X_obs Y_obs bounds w
          = (Ok loc, w')
          /\ calls w'
             = calls w ++ EvFit X_obs (Arr1 Y_obs) :: map (@EvMinimize float) (starts w)
          /\ length (starts w) = 25
          /\ In res results /\ loc = res_x res
          /\ is_nan (res_fun res) = false /\ res_fun res <> infinity)
  /\ (forall before x0 after results e,
        starts w = before ++ x0 :: after ->
        returns minimize objective bounds before results ->
        Forall unwraps results ->
        minimize objective x0 bounds = Raise e ->
        generate_parameters uniform fit minimize acquisition X_obs Y_obs bounds w
        = (Raise e,
           {| rng := snd (draw_rows uniform n_restarts bounds (rng w));
              calls := calls w ++ EvFit X_obs (Arr1 Y_obs)
                               :: map (@EvMinimize float) (before ++ [x0]) |}))
  /\ (forall before x0 after results res,
        starts w = before ++ x0 :: after ->
        returns minimize objective bounds before results ->
        Forall unwraps results ->
        minimize objective x0 bounds = Ok res ->
        fltb (res_fun res) (fst (fold_left keep results (float_max, None))) = true ->
        res_ndim res = 0 ->
        generate_parameters uniform fit minimize acquisition X_obs Y_obs bounds w
        = (Raise TypeError,
           {| rng := snd (draw_rows uniform n_restarts bounds (rng w));
              calls := calls w ++ EvFit X_obs (Arr1 Y_obs)
                               :: map (@EvMinimize float) (before ++ [x0]) |})).
Proof.
  intros Hsize Hne Hdim. split; [|split; [|split]].
  - intros obj x0 sts res min_val min_x w1 Hres Hbad.
    cbn [restarts]. unfold bind at 1, log. unfold bind at 1, lift. rewrite Hres.
    replace (fltb (res_fun res) min_val) with false; [reflexivity|].
    symmetry. cbn [fltb scalar].
    destruct Hbad as [Hnan| ->]; [|apply ltb_infinity_l].
    rewrite (is_nan_eq _ Hnan). apply ltb_nan_l.
  - intros results Hr Hu Hsome.
    pose proof (generate_parameters_returns uniform fit w Hsize Hne Hdim Hr Hu) as Hrun.
    assert (Hloc : snd (fold_left keep results (float_max, None)) <> None)
      by (apply fold_keep_some; right; split; [reflexivity|exact Hsome]).
    destruct (kept_all results) as [_ Hkept].
    destruct (fold_left keep results (float_max, None)) as [v [x|]];
      cbn [fst snd] in *; [|congruence].
    destruct Hkept as (i & res & Hi & Hx & Hv & Hb & _). subst v.
    destruct (below_sentinel Hb) as [Hnan Hinf].
    exists x. eexists. exists res. split; [exact Hrun|].
    cbn [calls]. repeat split; auto.
    + apply draw_rows_length.
    + eapply nth_error_In, Hi.
  - intros before x0 after results e Hs Hr Hu He.
    eapply generate_parameters_raises; eassumption.
  - intros before x0 after results res Hs Hr Hu Hx0 Hlow Hscalar.
    eapply generate_parameters_type_error; eassumption.
Qed.

End Restarts.

(** *** The stand-ins meet the contracts *)

Lemma uniform_in_range : uniform_contract Doubles.uniform.
Proof.
  intros low high g Hb. unfold Doubles.uniform, within. cbn [fst snd fleb scalar].
  destruct (_ && _)%bool eqn:E.
  - apply andb_true_iff in E. exact E.
  - split; [apply (leb_refl_of Hb)|exact Hb].
Qed.

Lemma clip_within (x : float) (b : float * float) :
  fleb (fst b) (snd b) = true -> within (Doubles.clip x b) b.
Proof.
  cbn [fleb scalar]. intros Hb. unfold Doubles.clip, within. cbn [fleb scalar].
  destruct (PrimFloat.leb (fst b) x) eqn:Hl.
  - destruct (PrimFloat.leb x (snd b)) eqn:Hh.
    + now split.
    + split; [exact Hb|apply (leb_refl_of Hb)].
  - split; [apply (leb_refl_of Hb)|exact Hb].
Qed.

Lemma project_in_bounds (x0 : list float) (bs : list (float * float)) :
  valid_bounds bs -> length x0 = length bs -> in_bounds (Doubles.project x0 bs) bs.
Proof.
  intros Hv. revert x0. induction Hv as [|b bs Hb Hv IH]; intros [|x x0] E;
    try discriminate.
  - constructor.
  - injection E as E. cbn. constructor; [now apply clip_within|now apply IH].
Qed.

Lemma box_minimize_respects_bounds : respects_bounds Doubles.box_minimize.
Proof.
  intros objective x0 bs res Hv. unfold Doubles.box_minimize.
  destruct (length x0 =? length bs) eqn:E; [|discriminate].
  apply Nat.eqb_eq in E.
  destruct (objective _) as [a|e]; [|discriminate].
  destruct (ravel a); [discriminate|].
  intros [= <-]. cbn [res_x]. now apply project_in_bounds.
Qed.

End ProposerFloat.

(* ------------------------------------------------------------------ *)
(** ** Runs of the proposer on the scenario of the specification *)

Module ProposerRuns.

Import Binary64 Binary64Facts ProposerFloat.
Import Doubles.

Ltac run := vm_compute; first [reflexivity | discriminate | intro; discriminate].

(** The starting points walk through the box, and the restart from [1.75]
    wins: first at the third turn, and again every four turns after. *)
Example generate_parameters_run :
  fst (generate_parameters uniform fit box_minimize acquisition X_obs Y_obs bounds w0)
  = Ok [1.75%float]
  /\ firstn 5 starts = [[0.25]; [1]; [1.75]; [0.5]; [0.25]]%float
  /\ nth_error starts 6 = Some [1.75%float].
Proof. repeat split; run. Qed.

(** C3: every restart of [nan_minimize] fails, since a NaN is below
    nothing.  The call ends in the [AttributeError] of [None.tolist()],
    which is not a signal that no candidate was found. *)
Lemma generate_parameters_no_candidate_signal :
  Forall (fun res => fltb (res_fun res) float_max = false) (results_of nan_minimize)
  /\ length (results_of nan_minimize) = 25
  /\ fst (generate_parameters uniform fit nan_minimize acquisition X_obs Y_obs bounds w0)
     = Raise AttributeError
  /\ fst (generate_parameters uniform fit nan_minimize acquisition X_obs Y_obs bounds w0)
     <> Raise NoCandidateFound.
Proof.
  split; [|split; [|split]].
  - apply forallb_Forall_false with (f := fun res => fltb (res_fun res) float_max). run.
  - run.
  - run.
  - run.
Qed.

(** The theorems above, on the scenario. *)
Lemma generate_parameters_no_candidate_witness :
  fst (generate_parameters uniform fit nan_minimize acquisition X_obs Y_obs bounds w0)
  = Raise AttributeError.
Proof.
  apply (@generate_parameters_no_candidate float _ nat uniform fit nan_minimize
           acquisition X_obs Y_obs bounds w0 (results_of nan_minimize)).
  - run.
  - run.
  - run.
  - apply run_all_returns. run.
  - apply forallb_Forall_false with (f := fun res => fltb (res_fun res) float_max). run.
Defined.

Lemma generate_parameters_within_bounds_witness :
  in_bounds [1.75%float] bounds
  /\ exists loc w',
       generate_parameters uniform fit box_minimize acquisition X_obs Y_obs bounds w0
       = (Ok loc, w')
       /\ in_bounds loc bounds.
Proof.
  assert (Hsize : np_size X_obs <> 0) by run.
  assert (Hvalid : valid_bounds bounds) by (repeat constructor).
  assert (Harrays : forallb (fun res => negb (res_ndim res =? 0)) (results_of box_minimize)
                    = true) by run.
  pose proof (@generate_parameters_within_bounds float _ nat uniform fit box_minimize
                acquisition X_obs Y_obs bounds w0 Hsize Hvalid
                box_minimize_respects_bounds) as [Hsafe Hfound].
  split.
  - eapply Hsafe. vm_compute. reflexivity.
  - apply (Hfound (results_of box_minimize)).
    + run.
    + run.
    + apply run_all_returns. run.
    + apply forallb_Forall_false with (f := fun res => res_ndim res =? 0) in Harrays.
      eapply Forall_impl; [|exact Harrays].
      intros res Hres. now apply Nat.eqb_neq.
    + apply existsb_Exists with (f := fun res => fltb (res_fun res) float_max). run.
Defined.

Lemma generate_parameters_cold_start_witness :
  (forall fit minimize acquisition,
     generate_parameters uniform fit minimize acquisition [] [] square w0
     = (Ok (fst (draw_row uniform square (rng w0))),
        {| rng := snd (draw_row uniform square (rng w0)); calls := calls w0 |}))
  /\ length (fst (draw_row uniform square (rng w0))) = length square
  /\ in_bounds (fst (draw_row uniform square (rng w0))) square.
Proof.
  apply (@generate_parameters_cold_start float _ nat uniform [] [] square w0).
  - reflexivity.
  - discriminate.
  - repeat constructor.
  - exact uniform_in_range.
Defined.

(** The cold start itself: two samples, no call to a collaborator. *)
Example generate_parameters_cold_run :
  generate_parameters uniform fit box_minimize acquisition [] [] square w0
  = (Ok [-3.75; 0]%float, {| rng := 2%nat; calls := [] |}).
Proof. run. Qed.

(** C7: [flaky_minimize] raises on the first starting point, [0.25], and
    would return a value below the sentinel on the third, [1.75].  The
    call ends in the exception of the first restart, after one call to
    the optimizer, and returns no location. *)
Lemma generate_parameters_optimizer_raises :
  nth_error starts 0 = Some [0.25%float]
  /\ flaky_minimize objective [0.25%float] bounds = Raise OptimizerError
  /\ nth_error starts 2 = Some [1.75%float]
  /\ (exists res, flaky_minimize objective [1.75%float] bounds = Ok res
                  /\ fltb (res_fun res) float_max = true)
  /\ generate_parameters uniform fit flaky_minimize acquisition X_obs Y_obs bounds w0
     = (Raise OptimizerError,
        {| rng := 25;
           calls := [EvFit X_obs (Arr1 Y_obs); EvMinimize [0.25%float]] |}).
Proof.
  repeat split; try run.
  eexists. split; run.
Qed.

(** A value of minus infinity is not skipped either: it is below the
    sentinel, and the restart that reports it is the one kept. *)
Example generate_parameters_minus_infinity :
  nth_error starts 1 = Some [1%float]
  /\ unbounded_minimize objective [1%float] bounds
     = Ok {| res_fun := neg_infinity; res_ndim := 2; res_x := [1%float] |}
  /\ fst (generate_parameters uniform fit unbounded_minimize acquisition
            X_obs Y_obs bounds w0)
     = Ok [1%float].
Proof. repeat split; run. Qed.

(** C7: the first restart of [patchy_minimize] reports a NaN and the
    second plus infinity; the call goes through the 25 restarts and
    returns the location of one that reported a number. *)
Lemma generate_parameters_failed_restarts_witness :
  nth_error (results_of patchy_minimize) 0
  = Some {| res_fun := nan; res_ndim := 2; res_x := [0.25%float] |}
  /\ nth_error (results_of patchy_minimize) 1
     = Some {| res_fun := infinity; res_ndim := 2; res_x := [1%float] |}
  /\ exists loc w' res,
       generate_parameters uniform fit patchy_minimize acquisition X_obs Y_obs bounds w0
       = (Ok loc, w')
       /\ calls w'
          = calls w0 ++ EvFit X_obs (Arr1 Y_obs) :: map (@EvMinimize float) starts
       /\ length starts = 25
       /\ In res (results_of patchy_minimize) /\ loc = res_x res
       /\ is_nan (res_fun res) = false /\ res_fun res <> infinity.
Proof.
  split; [run|]. split; [run|].
  apply (proj1 (proj2 (@generate_parameters_failed_restarts nat uniform fit
                         patchy_minimize acquisition X_obs Y_obs bounds w0
                         ltac:(run) ltac:(run) ltac:(run)))).
  - apply run_all_returns. run.
  - apply forallb_unwraps. run.
  - apply existsb_Exists with (f := fun res => fltb (res_fun res) float_max). run.
Defined.

(** C8: [scalar_minimize] returns on each of the 25 starting points and
    reports the objective as the plain number that SciPy makes of it.  The
    value of the first restart is below the sentinel: the call ends there
    in the [TypeError] of line 114, after one optimization, and returns no
    location. *)
Lemma generate_parameters_plain_number :
  length (results_of scalar_minimize) = 25
  /\ map (@res_ndim float) (firstn 1 (results_of scalar_minimize)) = [0]
  /\ map (fun res => fltb (res_fun res) float_max) (firstn 1 (results_of scalar_minimize))
     = [true]
  /\ generate_parameters uniform fit scalar_minimize acquisition X_obs Y_obs bounds w0
     = (Raise TypeError,
        {| rng := 25;
           calls := [EvFit X_obs (Arr1 Y_obs); EvMinimize [0.25%float]] |}).
Proof. repeat split; run. Qed.

End ProposerRuns.

(* ------------------------------------------------------------------ *)
(** ** More of [gp.py]: shapes, failures and the objective *)

(** *** The shape rule of broadcasting *)

Section Shapes.

Context {F : Type} `{Scalar F}.

(** [rows] has shape [(r, c)]. *)
Definition has_shape {A} (r c : nat) (rows : list (list A)) : Prop :=
  length rows = r /\ Forall (fun row => length row = c) rows.

(** Two extents broadcast when they are equal or one of them is [1]. *)
Definition broadcasts (n1 n2 : nat) : Prop := n1 = n2 \/ n1 = 1 \/ n2 = 1.

Lemma mapM_length {A B} (f : A -> result B) (l : list A) (l' : list B) :
  mapM f l = Ok l' -> length l' = length l.
Proof.
  revert l'. induction l as [|a l IH]; intros l'; cbn [mapM].
  - now intros [= <-].
  - destruct (f a) as [b|e]; [|discriminate]. cbn [rbind].
    destruct (mapM f l) as [bs|e]; [|discriminate]. cbn [rbind].
    intros [= <-]. cbn. now rewrite (IH bs).
Qed.

Lemma mapM_Forall {A B} (P : A -> Prop) (Q : B -> Prop) (f : A -> result B) l :
  Forall P l -> (forall a, P a -> exists b, f a = Ok b /\ Q b) ->
  exists l', mapM f l = Ok l' /\ length l' = length l /\ Forall Q l'.
Proof.
  intros Hl Hf. induction Hl as [|a l Ha Hl IH].
  - exists []. repeat split; constructor.
  - destruct (Hf a Ha) as (b & Eb & Qb). destruct IH as (l' & El & Hlen & HQ).
    exists (b :: l'). cbn [mapM]. rewrite Eb. cbn [rbind]. rewrite El. cbn [rbind].
    repeat split; [now cbn; rewrite Hlen|now constructor].
Qed.

Lemma Forall_combine {A B} (P : A -> Prop) (Q : B -> Prop) (a : list A) (b : list B) :
  Forall P a -> Forall Q b ->
  Forall (fun p => P (fst p) /\ Q (snd p)) (combine a b).
Proof.
  intros Ha. revert b. induction Ha as [|x a Hx Ha IH]; intros b Hb.
  - constructor.
  - destruct Hb as [|y b Hy Hb]; [constructor|].
    cbn. constructor; [now split|now apply IH].
Qed.

Lemma broadcast_stretch_left {A B C} (f : A -> B -> result C) (x : A) (b : list B) :
  length b <> 1 -> broadcast f [x] b = mapM (f x) b.
Proof.
  intros Hb. unfold broadcast. cbn [length].
  destruct (1 =? length b) eqn:E; [apply Nat.eqb_eq in E; congruence|reflexivity].
Qed.

Lemma broadcast_stretch_right {A B C} (f : A -> B -> result C) (a : list A) (y : B) :
  length a <> 1 -> broadcast f a [y] = mapM (fun x => f x y) a.
Proof.
  intros Ha. unfold broadcast. cbn [length].
  destruct (length a =? 1) eqn:E; [apply Nat.eqb_eq in E; congruence|].
  destruct a as [|x [|x' a]]; reflexivity.
Qed.

Lemma broadcast_zip {A B C} (f : A -> B -> result C) (a : list A) (b : list B) :
  length a = length b ->
  broadcast f a b = mapM (fun p => f (fst p) (snd p)) (combine a b).
Proof. intros E. unfold broadcast. now rewrite E, Nat.eqb_refl. Qed.

(** One axis: extents that broadcast give the larger extent, and an
    element function that returns on the elements returns on the axis. *)
Lemma broadcast_axis {A B C} (P : A -> Prop) (Q : B -> Prop) (R : C -> Prop)
    (f : A -> B -> result C) (a : list A) (b : list B) :
  1 <= length a -> 1 <= length b -> broadcasts (length a) (length b) ->
  Forall P a -> Forall Q b ->
  (forall x y, P x -> Q y -> exists z, f x y = Ok z /\ R z) ->
  exists c, broadcast f a b = Ok c
            /\ length c = Nat.max (length a) (length b) /\ Forall R c.
Proof.
  intros Ha Hb Hab HP HQ Hf.
  destruct (Nat.eq_dec (length a) (length b)) as [E|NE].
  - rewrite (broadcast_zip f a b E).
    destruct (@mapM_Forall _ _ (fun p => P (fst p) /\ Q (snd p)) R
                (fun p => f (fst p) (snd p)) (combine a b))
      as (c & Ec & Hlen & HR).
    { now apply Forall_combine. }
    { intros [x y] [Px Qy]. now apply Hf. }
    exists c. rewrite length_combine in Hlen. repeat split; [exact Ec|lia|exact HR].
  - destruct Hab as [E|[E|E]]; [congruence| |].
    + destruct a as [|x [|x' a]]; try discriminate.
      rewrite broadcast_stretch_left by (cbn in NE; congruence).
      destruct (@mapM_Forall _ _ Q R (f x) b) as (c & Ec & Hlen & HR).
      { exact HQ. }
      { intros y Qy. apply Hf; [now inversion HP|exact Qy]. }
      exists c. cbn [length] in *. repeat split; [exact Ec|lia|exact HR].
    + destruct b as [|y [|y' b]]; try discriminate.
      rewrite broadcast_stretch_right by (cbn in NE; congruence).
      destruct (@mapM_Forall _ _ P R (fun x => f x y) a) as (c & Ec & Hlen & HR).
      { exact HP. }
      { intros x Px. apply Hf; [exact Px|now inversion HQ]. }
      exists c. cbn [length] in *. repeat split; [exact Ec|lia|exact HR].
Qed.

(** NumPy's rule for two-dimensional operands: shapes [(r1, c1)] and
    [(r2, c2)] whose extents broadcast axis by axis give a result of shape
    [(max r1 r2, max c1 c2)], and nothing is raised. *)
Lemma broadcast2_shape (op : F -> F -> F) (a b : matrix F) r1 c1 r2 c2 :
  1 <= r1 -> 1 <= c1 -> 1 <= r2 -> 1 <= c2 ->
  has_shape r1 c1 a -> has_shape r2 c2 b ->
  broadcasts r1 r2 -> broadcasts c1 c2 ->
  exists c, broadcast2 op a b = Ok c
            /\ has_shape (Nat.max r1 r2) (Nat.max c1 c2) c.
Proof.
  intros Hr1 Hc1 Hr2 Hc2 [Ea Ha] [Eb Hb] Hr Hc. unfold broadcast2.
  destruct (@broadcast_axis _ _ _
              (fun row : list F => length row = c1) (fun row : list F => length row = c2)
              (fun row : list F => length row = Nat.max c1 c2)
              (broadcast (fun x y => Ok (op x y))) a b)
    as (c & Ec & Hlen & Hrows); try assumption; try lia.
  - now rewrite Ea, Eb.
  - intros x y Ex Ey.
    destruct (@broadcast_axis _ _ _ (fun _ : F => True) (fun _ : F => True)
                (fun _ : F => True) (fun x y => Ok (op x y)) x y)
      as (z & Ez & Hz & _); try lia.
    + now rewrite Ex, Ey.
    + apply Forall_forall. trivial.
    + apply Forall_forall. trivial.
    + intros u v _ _. eexists. split; [reflexivity|trivial].
    + exists z. split; [exact Ez|]. now rewrite Hz, Ex, Ey.
  - exists c. split; [exact Ec|]. split; [now rewrite Hlen, Ea, Eb|exact Hrows].
Qed.

Lemma has_shape_map {A B} (g : A -> B) r c (rows : list (list A)) :
  has_shape r c rows -> has_shape r c (map (map g) rows).
Proof.
  intros [E Hrows]. split; [now rewrite length_map|].
  apply Forall_map. eapply Forall_impl; [|exact Hrows].
  intros row Hrow. now rewrite length_map.
Qed.

Lemma has_shape_col (l : list F) : has_shape (length l) 1 (reshape_col l).
Proof.
  split; [apply reshape_col_length|].
  unfold reshape_col. apply Forall_map, Forall_forall. reflexivity.
Qed.

(** A boolean index of shape [(m, 1)] does not index an array of shape
    [(m, c)] with [c] other than [1]. *)
Lemma setitem_mask_mismatch (a : matrix F) (mask : list (list bool)) (v : F) m c :
  1 <= m -> c <> 1 -> has_shape m c a -> has_shape m 1 mask ->
  setitem_mask a mask v = Raise IndexError.
Proof.
  intros Hm Hc [Ea Ha] [Em Hmask]. unfold setitem_mask, same_shape.
  rewrite Ea, Em, Nat.eqb_refl. cbn [andb].
  destruct a as [|row a]; [cbn in Ea; lia|].
  destruct mask as [|mrow mask]; [cbn in Em; lia|].
  cbn [combine forallb fst snd].
  inversion Ha as [|? ? Hrow _]; inversion Hmask as [|? ? Hmrow _]; subst.
  rewrite Hmrow.
  destruct (length row =? 1) eqn:E; [apply Nat.eqb_eq in E; congruence|reflexivity].
Qed.

End Shapes.

(** *** [X.reshape(-1, dim)] *)

Section Reshape.

Context {F : Type} `{Scalar F}.

Lemma chunks_spec (dim fuel : nat) (v : list F) :
  dim <> 0 -> length v <= fuel -> length v mod dim = 0 ->
  concat (chunks fuel dim v) = v
  /\ Forall (fun row => length row = dim) (chunks fuel dim v)
  /\ length (chunks fuel dim v) * dim = length v.
Proof.
  intros Hdim. revert v. induction fuel as [|fuel IH]; intros v Hfuel Hmod.
  - destruct v; [|cbn in Hfuel; lia]. cbn. repeat split. constructor.
  - destruct v as [|x v']; [cbn; repeat split; constructor|].
    change (chunks (S fuel) dim (x :: v'))
      with (firstn dim (x :: v') :: chunks fuel dim (skipn dim (x :: v'))).
    assert (Hpos : 1 <= length (x :: v')) by (cbn; lia).
    revert Hfuel Hmod Hpos. generalize (x :: v'). clear x v'. intros v Hfuel Hmod Hpos.
    assert (Hge : dim <= length v).
    { destruct (Nat.lt_ge_cases (length v) dim) as [Hlt|]; [|assumption].
      rewrite Nat.mod_small in Hmod by exact Hlt. cbn in Hmod. lia. }
    assert (Hskip : length (skipn dim v) = length v - dim) by apply length_skipn.
    assert (Hfirst : length (firstn dim v) = dim)
      by (rewrite length_firstn; lia).
    destruct (IH (skipn dim v)) as (Hcat & Hrows & Hlen).
    + rewrite Hskip. lia.
    + rewrite Hskip.
      replace (length v) with ((length v - dim) + 1 * dim) in Hmod by lia.
      now rewrite Nat.Div0.mod_add in Hmod.
    + cbn [concat length]. rewrite Hcat, firstn_skipn. repeat split.
      * constructor; assumption.
      * rewrite Hskip in Hlen. lia.
Qed.

(** X1.  [reshape(-1, dim)] returns exactly when [dim] is positive and
    divides the number of elements; its rows then have [dim] elements
    each and, read in order, give the elements back. *)
Theorem reshape_rows_round_trip (v : list F) (dim : nat) :
  (dim <> 0 /\ length v mod dim = 0 ->
   exists rows,
     reshape_rows v dim = Ok rows
     /\ concat rows = v
     /\ Forall (fun row => length row = dim) rows
     /\ length rows * dim = length v)
  /\ (dim = 0 \/ length v mod dim <> 0 -> reshape_rows v dim = Raise ValueError).
Proof.
  unfold reshape_rows. split.
  - intros [Hdim Hmod].
    destruct (dim =? 0) eqn:E; [apply Nat.eqb_eq in E; congruence|].
    rewrite Hmod. cbn [Nat.eqb negb orb].
    exists (chunks (length v) dim v). split; [reflexivity|].
    now apply chunks_spec.
  - intros [->|Hmod]; [reflexivity|].
    destruct (dim =? 0); [reflexivity|].
    destruct (length v mod dim =? 0) eqn:E; [apply Nat.eqb_eq in E; congruence|].
    reflexivity.
Qed.

Lemma reshape_rows_point (v : list F) :
  v <> [] -> reshape_rows v (length v) = Ok [v].
Proof.
  intros Hv. unfold reshape_rows.
  destruct v as [|x v']; [congruence|].
  assert (Hlen : length (x :: v') <> 0) by discriminate.
  destruct (length (x :: v') =? 0) eqn:E; [apply Nat.eqb_eq in E; congruence|].
  rewrite Nat.Div0.mod_same. cbn [Nat.eqb negb orb].
  change (chunks (length (x :: v')) (length (x :: v')) (x :: v'))
    with (firstn (length (x :: v')) (x :: v')
          :: chunks (length v') (length (x :: v')) (skipn (length (x :: v')) (x :: v'))).
  rewrite firstn_all, skipn_all. now destruct (length v').
Qed.

End Reshape.

(** *** What makes the scorer raise *)

Section ScorerFailures.

Context {F : Type} `{Scalar F}.
Variables norm_cdf norm_pdf : F -> F.
Variables (X X_obs : matrix F) (Y_obs : ndarray F) (gpr : GaussianProcessRegressor F).
Variable xi : F.

(** X2.  With one posterior mean and one standard deviation per candidate,
    the scorer raises exactly when the surrogate returns no prediction at
    the observed inputs, and what it raises is the [ValueError] of
    [np.max]. *)
Theorem expected_improvement_raises_iff (mu : list F) :
  per_candidate (predict_mean gpr X) mu ->
  length mu = length (predict_std gpr X) ->
  (ravel (predict_mean gpr X_obs) = [] ->
   expected_improvement norm_cdf norm_pdf X X_obs Y_obs gpr xi = Raise ValueError)
  /\ (ravel (predict_mean gpr X_obs) <> [] ->
      exists ei,
        expected_improvement norm_cdf norm_pdf X X_obs Y_obs gpr xi = Ok (Arr2 ei)).
Proof.
  intros Hmu Hlen. split.
  - intros Hempty. unfold expected_improvement, np_max. now rewrite Hempty.
  - intros Hsome.
    destruct (np_max (predict_mean gpr X_obs)) as [opt|e] eqn:Hopt.
    + eexists. apply expected_improvement_entries; eassumption.
    + unfold np_max in Hopt.
      destruct (ravel (predict_mean gpr X_obs)); [congruence|discriminate].
Qed.

(** X3.  A posterior mean that comes as a vector of two or more numbers
    broadcasts against the column of deviations to a square array, which
    the boolean index of line 64, of one column, does not fit: the scorer
    raises [IndexError]. *)
Theorem expected_improvement_vector_batch (opt : F) (mu : list F) :
  predict_mean gpr X = Arr1 mu ->
  2 <= length mu ->
  length (predict_std gpr X) = length mu ->
  np_max (predict_mean gpr X_obs) = Ok opt ->
  expected_improvement norm_cdf norm_pdf X X_obs Y_obs gpr xi = Raise IndexError.
Proof.
  intros Hmu Hm Hsigma Hopt. unfold expected_improvement.
  rewrite Hopt, Hmu. cbn [rbind nd_map atleast_2d].
  set (m := length mu) in *.
  set (imp := map (fun a => fsub (fsub a opt) xi) mu).
  assert (Himp : has_shape 1 m [imp]).
  { split; [reflexivity|]. constructor; [|constructor]. apply length_map. }
  assert (Hcol : has_shape m 1 (reshape_col (predict_std gpr X)))
    by (rewrite <- Hsigma; apply has_shape_col).
  assert (Hmax1 : Nat.max 1 m = m) by lia.
  assert (Hmax2 : Nat.max m 1 = m) by lia.
  assert (Hmm : Nat.max m m = m) by lia.
  assert (HZ : exists Z,
             broadcast2 fdiv [imp] (reshape_col (predict_std gpr X)) = Ok Z
             /\ has_shape (Nat.max 1 m) (Nat.max m 1) Z)
    by (apply broadcast2_shape; try assumption; try lia; unfold broadcasts; lia).
  destruct HZ as (Z & EZ & HZ). rewrite EZ. cbn [rbind]. rewrite Hmax1, Hmax2 in HZ.
  assert (Hl : exists l,
             broadcast2 fmul [imp] (map (map norm_cdf) Z) = Ok l
             /\ has_shape (Nat.max 1 m) (Nat.max m m) l)
    by (apply broadcast2_shape; try assumption; try lia;
        [now apply has_shape_map|unfold broadcasts; lia|unfold broadcasts; lia]).
  destruct Hl as (l & El & Hl). rewrite El. cbn [rbind]. rewrite Hmax1, Hmm in Hl.
  assert (Hr : exists r,
             broadcast2 fmul (reshape_col (predict_std gpr X)) (map (map norm_pdf) Z)
             = Ok r
             /\ has_shape (Nat.max m m) (Nat.max 1 m) r)
    by (apply broadcast2_shape; try assumption; try lia;
        [now apply has_shape_map|unfold broadcasts; lia|unfold broadcasts; lia]).
  destruct Hr as (r & Er & Hr). rewrite Er. cbn [rbind]. rewrite Hmm, Hmax1 in Hr.
  assert (Hei : exists ei,
             broadcast2 fadd l r = Ok ei /\ has_shape (Nat.max m m) (Nat.max m m) ei)
    by (apply broadcast2_shape; try assumption; try lia; unfold broadcasts; lia).
  destruct Hei as (ei & Eei & Hei). rewrite Eei. cbn [rbind]. rewrite Hmm in Hei.
  erewrite setitem_mask_mismatch with (m := m) (c := m);
    [reflexivity|lia|lia|exact Hei|now apply has_shape_map].
Qed.

End ScorerFailures.

(** *** The objective that the optimizer sees *)

Section Objective.

Context {F : Type} `{Scalar F}.
Variables norm_cdf norm_pdf : F -> F.

(** X4.  With the scorer as acquisition function and a surrogate whose
    mean at one point is a vector of one number: at a point of the
    observations' dimension the objective of line 108 is the one-by-one
    array holding the negated score of that point. *)
Theorem min_obj_negated_score
    (Xs : matrix F) (Ys : ndarray F) (gpr : GaussianProcessRegressor F)
    (xi opt m s : F) (x : list F) :
  x <> [] ->
  predict_mean gpr [x] = Arr1 [m] ->
  predict_std gpr [x] = [s] ->
  np_max (predict_mean gpr Xs) = Ok opt ->
  min_obj (fun X Xs Ys gpr => expected_improvement norm_cdf norm_pdf X Xs Ys gpr xi)
    Xs Ys gpr (length x) x
  = Ok (Arr2 [[fopp (ei_entry norm_cdf norm_pdf opt xi m s)]]).
Proof.
  intros Hx Hmean Hstd Hopt. unfold min_obj.
  rewrite (reshape_rows_point Hx). cbn [rbind].
  rewrite (@expected_improvement_entries _ _ norm_cdf norm_pdf [x] Xs gpr Ys xi opt [m]);
    [|right; split; [exact Hmean|reflexivity]|now rewrite Hstd|exact Hopt].
  rewrite Hstd. reflexivity.
Qed.

End Objective.

(* ------------------------------------------------------------------ *)
(** ** More of [generate_parameters]: what every call does *)

Section ProposerInvariants.

Context {F : Type} `{ScalarOrder F}.
Variable G : Type.
Variable uniform : F -> F -> G -> F * G.
Variable fit : matrix F -> ndarray F -> GaussianProcessRegressor F.
Variable minimize :
  (list F -> result (ndarray F)) -> list F -> list (F * F) -> result (OptimizeResult F).
Variable acquisition :
  matrix F -> matrix F -> ndarray F -> GaussianProcessRegressor F -> result (ndarray F).
Variables (X_obs : matrix F) (Y_obs : list F) (bounds : list (F * F)).

Local Abbreviation objective :=
  (min_obj acquisition X_obs (Arr1 Y_obs) (fit X_obs (Arr1 Y_obs)) (shape1 X_obs)).

Local Abbreviation starts w := (fst (draw_rows uniform n_restarts bounds (rng w))).

(** The loop, however it ends: it leaves the generator alone, it has
    called the optimizer on the first [k] starting points in order, and
    when it ends normally the optimizer has returned on all of them. *)
Lemma restarts_outcome obj sts min_val min_x (w w' : world F G) r :
  restarts minimize obj bounds sts min_val min_x w = (r, w') ->
  rng w' = rng w
  /\ exists k,
       k <= length sts
       /\ calls w' = calls w ++ map (@EvMinimize F) (firstn k sts)
       /\ forall best,
            r = Ok best ->
            k = length sts
            /\ exists results,
                 returns minimize obj bounds sts results
                 /\ best = fold_left keep results (min_val, min_x).
Proof.
  revert min_val min_x w. induction sts as [|x0 sts IH]; intros min_val min_x w Hrun.
  - cbn in Hrun. injection Hrun as <- <-. split; [reflexivity|].
    exists 0. split; [lia|]. split; [cbn; now rewrite app_nil_r|].
    intros best [= <-]. split; [reflexivity|].
    exists []. split; [constructor|reflexivity].
  - cbn [restarts] in Hrun. unfold bind at 1, log in Hrun.
    unfold bind at 1, lift in Hrun.
    assert (Hone : forall e : exn,
               (@Raise (F * option (list F)) e,
                {| rng := rng w; calls := calls w ++ [EvMinimize x0] |}) = (r, w') ->
               rng w' = rng w
               /\ exists k,
                    k <= length (x0 :: sts)
                    /\ calls w' = calls w ++ map (@EvMinimize F) (firstn k (x0 :: sts))
                    /\ forall best,
                         r = Ok best ->
                         k = length (x0 :: sts)
                         /\ exists results,
                              returns minimize obj bounds (x0 :: sts) results
                              /\ best = fold_left keep results (min_val, min_x)).
    { intros e [= <- <-]. split; [reflexivity|].
      exists 1. cbn [length firstn map]. split; [lia|]. split; [reflexivity|].
      discriminate. }
    destruct (minimize obj x0 bounds) as [res|e] eqn:Hres; [|exact (Hone e Hrun)].
    assert (Hstep : fltb (res_fun res) min_val = true -> res_ndim res = 0 ->
                    (@Raise (F * option (list F)) TypeError,
                     {| rng := rng w; calls := calls w ++ [EvMinimize x0] |}) = (r, w')).
    { intros Hlt Hscalar. rewrite Hlt in Hrun. unfold bind at 1, lift in Hrun.
      now rewrite (fun_item_scalar _ Hscalar) in Hrun. }
    destruct (fltb (res_fun res) min_val) eqn:Hlt;
      [destruct (Nat.eq_dec (res_ndim res) 0) as [Hscalar|Harray];
       [exact (Hone _ (Hstep eq_refl Hscalar))|]|].
    all: assert (Hnext : restarts minimize obj bounds sts
                        (fst (keep (min_val, min_x) res)) (snd (keep (min_val, min_x) res))
                        {| rng := rng w; calls := calls w ++ [EvMinimize x0] |}
                      = (r, w'))
        by (unfold keep; cbn [fst]; rewrite Hlt; cbn [fst snd];
            try (unfold bind at 1, lift in Hrun;
                 rewrite (fun_item_array _ Harray) in Hrun);
            exact Hrun).
    all: destruct (IH _ _ _ Hnext) as (Hrng & k & Hk & Hcalls & Hok).
    all: split; [exact Hrng|]; exists (S k); cbn [length firstn map]; split; [lia|].
    all: split; [rewrite Hcalls; cbn [calls]; now rewrite <- app_assoc|].
    all: intros best Hbest; destruct (Hok best Hbest) as (-> & results & Hret & ->).
    all: split; [reflexivity|]; exists (res :: results); split;
      [constructor; assumption|].
    all: cbn [fold_left]; now destruct (keep (min_val, min_x) res).
Qed.

Lemma draw_rows_in_bounds (n : nat) (g : G) :
  uniform_contract uniform -> valid_bounds bounds ->
  Forall (fun x0 => in_bounds x0 bounds) (fst (draw_rows uniform n bounds g)).
Proof.
  intros Hu Hv. revert g. induction n as [|n IH]; intros g; [constructor|].
  cbn [draw_rows]. pose proof (draw_row_in_bounds g Hu Hv) as Hrow.
  destruct (draw_row uniform bounds g) as [row g1].
  specialize (IH g1). destruct (draw_rows uniform n bounds g1) as [rows g2].
  constructor; assumption.
Qed.

Lemma Forall_prefix {A} (P : A -> Prop) (k : nat) (l : list A) :
  Forall P l -> Forall P (firstn k l).
Proof.
  intros Hl. revert k. induction Hl as [|x l Hx Hl IH]; intros [|k]; cbn;
    constructor; auto.
Qed.

(** X5.  With observations and as many bounds as the observations have
    coordinates, however the call ends: the surrogate is fitted once and
    first; the 25 times [dim] samples are drawn before the first
    optimization, so the generator is left in the same state whatever the
    optimizer does; the optimizer is called on the first [k] of the 25
    starting points, in their order and on nothing else; and [k] is 25
    when a location is returned. *)
Theorem generate_parameters_calls (w w' : world F G) r :
  np_size X_obs <> 0 -> bounds <> [] -> length bounds = shape1 X_obs ->
  generate_parameters uniform fit minimize acquisition X_obs Y_obs bounds w = (r, w') ->
  rng w' = snd (draw_rows uniform n_restarts bounds (rng w))
  /\ exists k,
       k <= 25
       /\ calls w'
          = calls w ++ EvFit X_obs (Arr1 Y_obs)
                    :: map (@EvMinimize F) (firstn k (starts w))
       /\ forall loc, r = Ok loc -> k = 25.
Proof.
  intros Hsize Hne Hdim.
  rewrite generate_parameters_warm by assumption.
  destruct (restarts minimize objective bounds (starts w) float_max None _)
    as [rb wb] eqn:Hrun.
  destruct (restarts_outcome _ _ _ _ _ Hrun) as (Hrng & k & Hk & Hcalls & Hok).
  rewrite draw_rows_length in Hk. cbn [rng calls] in Hrng, Hcalls.
  intros Hout.
  assert (Ewb : w' = wb).
  { destruct rb as [best|e]; [destruct (snd best)|]; now injection Hout as _ <-. }
  subst wb. split; [exact Hrng|]. exists k. split; [exact Hk|]. split.
  - rewrite Hcalls, <- app_assoc. reflexivity.
  - intros loc ->. destruct rb as [best|e]; [|discriminate].
    destruct (Hok best eq_refl) as [-> _]. apply draw_rows_length.
Qed.

(** X6.  With valid bounds and a generator that samples within its
    interval, every point on which the optimizer is started lies within
    the bounds, coordinate by coordinate. *)
Theorem generate_parameters_starts_in_bounds (w w' : world F G) r :
  np_size X_obs <> 0 -> bounds <> [] -> length bounds = shape1 X_obs ->
  uniform_contract uniform -> valid_bounds bounds ->
  generate_parameters uniform fit minimize acquisition X_obs Y_obs bounds w = (r, w') ->
  exists sts,
    calls w' = calls w ++ EvFit X_obs (Arr1 Y_obs) :: map (@EvMinimize F) sts
    /\ Forall (fun x0 => in_bounds x0 bounds /\ length x0 = shape1 X_obs) sts.
Proof.
  intros Hsize Hne Hdim Hu Hv.
  rewrite generate_parameters_warm by assumption.
  destruct (restarts minimize objective bounds (starts w) float_max None _)
    as [rb wb] eqn:Hrun.
  destruct (restarts_outcome _ _ _ _ _ Hrun) as (_ & k & _ & Hcalls & _).
  cbn [calls] in Hcalls. intros Hout.
  assert (Ewb : w' = wb).
  { destruct rb as [best|e]; [destruct (snd best)|]; now injection Hout as _ <-. }
  subst wb. exists (firstn k (starts w)). split.
  - rewrite Hcalls, <- app_assoc. reflexivity.
  - apply Forall_prefix.
    eapply Forall_impl; [|apply (draw_rows_in_bounds n_restarts (rng w) Hu Hv)].
    intros x0 Hx0. split; [exact Hx0|].
    rewrite <- Hdim. apply (Forall2_length Hx0).
Qed.

(** X7.  With observations, bounds that are neither as many as the
    observations have coordinates nor a single pair stop the call after
    the surrogate is fitted and before any sample is drawn or any
    optimization is run: in [IndexError] when there is no pair at all, in
    the [ValueError] of the sampler otherwise. *)
Theorem generate_parameters_bad_bounds (w : world F G) :
  np_size X_obs <> 0 -> length bounds <> shape1 X_obs -> length bounds <> 1 ->
  generate_parameters uniform fit minimize acquisition X_obs Y_obs bounds w
  = (Raise (match bounds with [] => IndexError | _ :: _ => ValueError end),
     {| rng := rng w; calls := calls w ++ [EvFit X_obs (Arr1 Y_obs)] |}).
Proof.
  intros Hsize Hdim Hone. unfold generate_parameters.
  rewrite (proj2 (Nat.eqb_neq _ _) Hsize).
  unfold bind at 1, log. unfold bind at 1, uniform_matrix, bind, columns.
  destruct bounds as [|b bs]; [reflexivity|]. unfold ret.
  rewrite (proj2 (Nat.eqb_neq _ _) Hdim).
  destruct bs as [|b' bs]; [now contradiction Hone|reflexivity].
Qed.

(** X8.  With observations and as many bounds as coordinates: a location
    is returned only when the optimizer has returned on each of the 25
    restarts, and it is the location of one of them, whose objective
    value is below [sys.float_info.max]. *)
Theorem generate_parameters_returned_location (w w' : world F G) loc :
  np_size X_obs <> 0 -> bounds <> [] -> length bounds = shape1 X_obs ->
  generate_parameters uniform fit minimize acquisition X_obs Y_obs bounds w
  = (Ok loc, w') ->
  exists results res,
    returns minimize objective bounds (starts w) results
    /\ length results = 25
    /\ In res results
    /\ loc = res_x res
    /\ fltb (res_fun res) float_max = true.
Proof.
  intros Hsize Hne Hdim.
  rewrite generate_parameters_warm by assumption.
  destruct (restarts minimize objective bounds (starts w) float_max None _)
    as [[best|e] wb] eqn:Hrun; [|discriminate].
  destruct (restarts_outcome _ _ _ _ _ Hrun) as (_ & k & _ & _ & Hok).
  destruct (Hok best eq_refl) as (_ & results & Hret & Hbest).
  destruct (kept_all results) as [_ Hkept]. rewrite <- Hbest in Hkept.
  destruct (snd best) as [x|]; [|discriminate]. intros [= <- _].
  destruct Hkept as (i & res & Hi & Hx & Hv & Hb & _).
  exists results, res. repeat split.
  - exact Hret.
  - rewrite <- (Forall2_length Hret). apply draw_rows_length.
  - eapply nth_error_In, Hi.
  - now symmetry.
  - now rewrite Hv.
Qed.

End ProposerInvariants.

(* ------------------------------------------------------------------ *)
(** ** The restart that is kept, in terms of the acquisition function *)

Section BestRestart.

Context {F : Type} `{ScalarOrder F}.
Variable G : Type.
Variable uniform : F -> F -> G -> F * G.
Variable fit : matrix F -> ndarray F -> GaussianProcessRegressor F.
Variable minimize :
  (list F -> result (ndarray F)) -> list F -> list (F * F) -> result (OptimizeResult F).
Variable acquisition :
  matrix F -> matrix F -> ndarray F -> GaussianProcessRegressor F -> result (ndarray F).
Variables (X_obs : matrix F) (Y_obs : list F) (bounds : list (F * F)).

Local Abbreviation gpr := (fit X_obs (Arr1 Y_obs)).

Local Abbreviation objective :=
  (min_obj acquisition X_obs (Arr1 Y_obs) gpr (shape1 X_obs)).

Local Abbreviation starts w := (fst (draw_rows uniform n_restarts bounds (rng w))).

Lemma ravel_nd_map (f : F -> F) (a : ndarray F) :
  ravel (nd_map f a) = map f (ravel a).
Proof. destruct a as [v|rows]; cbn; [reflexivity|]. symmetry. apply concat_map. Qed.

(** What the optimizer reports of the objective of line 108, at a location
    of the observations' dimension, is the negated acquisition there: the
    location is reshaped to a batch of one row, the acquisition function is
    called on it with the observations and the fitted surrogate, and its
    value is negated. *)
Lemma reports_negated_acquisition (res : OptimizeResult F) :
  shape1 X_obs <> 0 ->
  reports objective (shape1 X_obs) res ->
  negated_acquisition acquisition X_obs (Arr1 Y_obs) gpr (res_x res) (res_fun res).
Proof.
  intros Hdim [Hlen (a & Hobj & Hv)]. unfold min_obj in Hobj.
  rewrite <- Hlen in Hobj, Hdim.
  rewrite reshape_rows_point in Hobj
    by (intros E; apply Hdim; now rewrite E).
  cbn [rbind] in Hobj.
  destruct (acquisition [res_x res] X_obs (Arr1 Y_obs) gpr) as [a0|e] eqn:Ha;
    [|discriminate].
  cbn [rbind] in Hobj. injection Hobj as <-. rewrite ravel_nd_map in Hv.
  destruct (ravel a0) as [|s [|s' l]] eqn:E; try discriminate.
  injection Hv as Hv. exists a0, s. split; [exact Ha|]. split; [exact E|now symmetry].
Qed.

Lemma firstn_through {A} (before : list A) (x : A) (after : list A) :
  firstn (S (length before)) (before ++ x :: after) = before ++ [x].
Proof.
  induction before as [|y before IH]; [reflexivity|].
  cbn [length app]. rewrite firstn_cons. now rewrite IH.
Qed.

(** C8, as the code has it.  With observations, an optimizer that returns
    on each of the starting points and reports, at a location of the
    observations' dimension, the one number that the objective of line 108
    returns there, and some reported value below the sentinel:

    - when line 114 can unwrap the values below the sentinel, [minimize]
      is called 25 times, once per starting point and in their order; the
      location returned is that of a restart; the value of each restart is
      the negated acquisition at its location; no restart has a value
      below that of the location returned; and no earlier restart has a
      value equal to it or below;
    - when the values come as plain numbers, the call ends in the
      [TypeError] of [res.fun[0]] at the first restart whose value is below
      the sentinel, after that many calls of [minimize], and returns no
      location. *)
Theorem generate_parameters_best_acquisition (w : world F G) results :
  np_size X_obs <> 0 -> bounds <> [] -> length bounds = shape1 X_obs ->
  returns minimize objective bounds (starts w) results ->
  Forall (reports objective (shape1 X_obs)) results ->
  Exists (fun res => fltb (res_fun res) float_max = true) results ->
  (Forall unwraps results ->
   exists loc w' i res,
     generate_parameters uniform fit minimize acquisition X_obs Y_obs bounds w
     = (Ok loc, w')
     /\ calls w'
        = calls w ++ EvFit X_obs (Arr1 Y_obs) :: map (@EvMinimize F) (starts w)
     /\ length (starts w) = 25
     /\ nth_error results i = Some res
     /\ loc = res_x res
     /\ negated_acquisition acquisition X_obs (Arr1 Y_obs) gpr loc (res_fun res)
     /\ forall j res',
          nth_error results j = Some res' ->
          negated_acquisition acquisition X_obs (Arr1 Y_obs) gpr
            (res_x res') (res_fun res')
          /\ fltb (res_fun res') (res_fun res) = false
          /\ (j < i -> fleb (res_fun res') (res_fun res) = false))
  /\ (Forall (fun res => res_ndim res = 0) results ->
      exists w' k res,
        generate_parameters uniform fit minimize acquisition X_obs Y_obs bounds w
        = (Raise TypeError, w')
        /\ nth_error results k = Some res
        /\ fltb (res_fun res) float_max = true
        /\ (forall j res', j < k -> nth_error results j = Some res' ->
                           fltb (res_fun res') float_max = false)
        /\ calls w'
           = calls w ++ EvFit X_obs (Arr1 Y_obs)
                     :: map (@EvMinimize F) (firstn (S k) (starts w))).
Proof.
  intros Hsize Hne Hdim Hr Hrep Hsome.
  assert (Hpos : shape1 X_obs <> 0).
  { rewrite <- Hdim. destruct bounds; [congruence|discriminate]. }
  split.
  - intros Hu.
    pose proof (generate_parameters_returns uniform fit w Hsize Hne Hdim Hr Hu) as Hrun.
    assert (Hloc : snd (fold_left keep results (float_max, None)) <> None)
      by (apply fold_keep_some; right; split; [reflexivity|exact Hsome]).
    destruct (kept_all results) as [Hlow Hkept].
    destruct (fold_left keep results (float_max, None)) as [v [x|]];
      cbn [fst snd] in *; [|congruence].
    destruct Hkept as (i & res & Hi & Hx & Hv & _ & Hbefore). subst v x.
    rewrite Forall_forall in Hrep.
    exists (res_x res). eexists. exists i, res. split; [exact Hrun|].
    cbn [calls]. repeat split; auto.
    + apply draw_rows_length.
    + apply (reports_negated_acquisition Hpos), Hrep. eapply nth_error_In, Hi.
    + apply (reports_negated_acquisition Hpos), Hrep. eapply nth_error_In; eassumption.
    + apply Hlow. eapply nth_error_In; eassumption.
    + intros Hj. eapply Hbefore; eassumption.
  - intros Hscalar.
    destruct (Exists_first (fun res => fltb (res_fun res) float_max) Hsome)
      as (rb & r & ra & -> & Hnone & Hr0).
    apply Forall2_app_inv_r in Hr. destruct Hr as (sb & sa & Hsb & Hsa & Hs).
    inversion Hsa as [|x0 r' sa' ra' Hx0 _]; subst.
    assert (Hlen : length sb = length rb) by apply (Forall2_length Hsb).
    eexists. exists (length rb), r. split; [|split; [|split; [|split]]].
    + eapply generate_parameters_type_error; try eassumption.
      * exact (unwraps_none_below Hnone).
      * now rewrite (fold_keep_none Hnone).
      * rewrite Forall_forall in Hscalar. apply Hscalar, in_elt.
    + now rewrite nth_error_app2, Nat.sub_diag by lia.
    + exact Hr0.
    + intros j res' Hj Hres'. rewrite nth_error_app1 in Hres' by exact Hj.
      rewrite Forall_forall in Hnone. eapply Hnone, nth_error_In, Hres'.
    + cbn [calls]. now rewrite Hs, <- Hlen, firstn_through.
Qed.

End BestRestart.

Module BestRestartRuns.

Import Binary64 Binary64Facts ProposerFloat.
Import Doubles.

Ltac run := vm_compute; first [reflexivity | discriminate | intro; discriminate].

(** Both stand-ins report the objective at the location they return. *)
Ltac reports_all minimize :=
  change (results_of minimize)
    with ltac:(let r := eval vm_compute in (results_of minimize) in exact r);
  repeat (constructor;
          [split; [reflexivity|eexists; split; [reflexivity|vm_compute; reflexivity]]|]);
  constructor.

Lemma box_minimize_reports :
  Forall (reports objective (shape1 X_obs)) (results_of box_minimize).
Proof. reports_all box_minimize. Qed.

Lemma scalar_minimize_reports :
  Forall (reports objective (shape1 X_obs)) (results_of scalar_minimize).
Proof. reports_all scalar_minimize. Qed.

(** C8 on the scenario: with values in arrays the 25 restarts run and the
    location of lowest negated acquisition is returned; with the same
    values as plain numbers the call ends in [TypeError]. *)
Lemma generate_parameters_best_acquisition_witness :
  (exists loc w' i res,
     generate_parameters uniform fit box_minimize acquisition X_obs Y_obs bounds w0
     = (Ok loc, w')
     /\ calls w'
        = calls w0 ++ EvFit X_obs (Arr1 Y_obs) :: map (@EvMinimize float) starts
     /\ length starts = 25
     /\ nth_error (results_of box_minimize) i = Some res
     /\ loc = res_x res
     /\ negated_acquisition acquisition X_obs (Arr1 Y_obs) (fit X_obs (Arr1 Y_obs))
          loc (res_fun res)
     /\ forall j res',
          nth_error (results_of box_minimize) j = Some res' ->
          negated_acquisition acquisition X_obs (Arr1 Y_obs) (fit X_obs (Arr1 Y_obs))
            (res_x res') (res_fun res')
          /\ fltb (res_fun res') (res_fun res) = false
          /\ (j < i -> fleb (res_fun res') (res_fun res) = false))
  /\ (exists w' k res,
        generate_parameters uniform fit scalar_minimize acquisition X_obs Y_obs bounds w0
        = (Raise TypeError, w')
        /\ nth_error (results_of scalar_minimize) k = Some res
        /\ fltb (res_fun res) float_max = true
        /\ (forall j res', j < k -> nth_error (results_of scalar_minimize) j = Some res' ->
                           fltb (res_fun res') float_max = false)
        /\ calls w'
           = calls w0 ++ EvFit X_obs (Arr1 Y_obs)
                      :: map (@EvMinimize float) (firstn (S k) starts)).
Proof.
  assert (Hsize : np_size X_obs <> 0) by run.
  assert (Hne : bounds <> []) by run.
  assert (Hdim : length bounds = shape1 X_obs) by run.
  split.
  - assert (Hr : returns box_minimize objective bounds starts (results_of box_minimize))
      by (apply run_all_returns; run).
    assert (Hsome : Exists (fun res => fltb (res_fun res) float_max = true)
                      (results_of box_minimize))
      by (apply existsb_Exists with (f := fun res => fltb (res_fun res) float_max); run).
    apply (proj1 (@generate_parameters_best_acquisition float _ _ nat uniform fit
                    box_minimize acquisition X_obs Y_obs bounds w0
                    (results_of box_minimize) Hsize Hne Hdim Hr
                    box_minimize_reports Hsome)).
    apply forallb_unwraps. run.
  - assert (Hr : returns scalar_minimize objective bounds starts
                   (results_of scalar_minimize))
      by (apply run_all_returns; run).
    assert (Hsome : Exists (fun res => fltb (res_fun res) float_max = true)
                      (results_of scalar_minimize))
      by (apply existsb_Exists with (f := fun res => fltb (res_fun res) float_max); run).
    apply (proj2 (@generate_parameters_best_acquisition float _ _ nat uniform fit
                    scalar_minimize acquisition X_obs Y_obs bounds w0
                    (results_of scalar_minimize) Hsize Hne Hdim Hr
                    scalar_minimize_reports Hsome)).
    change (results_of scalar_minimize)
      with ltac:(let r := eval vm_compute in (results_of scalar_minimize) in exact r).
    repeat constructor.
Defined.

End BestRestartRuns.

(* ------------------------------------------------------------------ *)
(** ** binary64: NaN predictions, infinite objectives and the acquisition *)

Lemma SFltb_opp a b : SFltb (SFopp a) (SFopp b) = SFltb b a.
Proof.
  unfold SFltb, SFcompare, SFopp.
  destruct a as [[|]|[|]| |[|] ? ?], b as [[|]|[|]| |[|] ? ?];
    try reflexivity; cbn [negb]; sf_compare.
Qed.

Lemma SFltb_minus_infinity a :
  SFeqb a a = true -> SFltb (S754_infinity true) a = false -> a = S754_infinity true.
Proof.
  unfold SFltb, SFeqb, SFcompare.
  destruct a as [[|]|[|]| |[|] ? ?]; try discriminate; reflexivity.
Qed.

Module FloatEdges.

Import Binary64 Binary64Facts ProposerFloat.

Lemma sub_nan_r (x : float) : PrimFloat.sub x nan = nan.
Proof.
  apply Prim2SF_inj. rewrite sub_spec. change (Prim2SF nan) with S754_nan.
  now destruct (Prim2SF x).
Qed.

Lemma sub_nan_l (x : float) : PrimFloat.sub nan x = nan.
Proof. apply Prim2SF_inj. rewrite sub_spec. reflexivity. Qed.

Lemma mul_nan_l (x : float) : PrimFloat.mul nan x = nan.
Proof. apply Prim2SF_inj. rewrite mul_spec. reflexivity. Qed.

Lemma add_nan_l (x : float) : PrimFloat.add nan x = nan.
Proof. apply Prim2SF_inj. rewrite add_spec. reflexivity. Qed.

Lemma ltb_opp (a b : float) :
  PrimFloat.ltb (PrimFloat.opp a) (PrimFloat.opp b) = PrimFloat.ltb b a.
Proof. rewrite !ltb_spec, !opp_spec. apply SFltb_opp. Qed.

Lemma maximum_nan_l (y : float) : maximum nan y = nan.
Proof.
  unfold maximum. change (PrimFloat.eqb nan nan) with false.
  now rewrite orb_true_r.
Qed.

Lemma maximum_nan_r (x : float) : maximum x nan = nan.
Proof.
  unfold maximum. rewrite leb_spec. change (Prim2SF nan) with S754_nan.
  replace (SFleb S754_nan (Prim2SF x)) with false by reflexivity.
  cbn [orb]. destruct (PrimFloat.eqb x x) eqn:E; cbn [negb]; [reflexivity|].
  apply is_nan_eq. unfold is_nan. now rewrite E.
Qed.

(** [np.max] propagates a NaN. *)
Lemma fold_maximum_nan (l : list float) (x : float) :
  In nan (x :: l) -> fold_left maximum l x = nan.
Proof.
  revert x. induction l as [|a l IH]; intros x Hin.
  - destruct Hin as [->|[]]. reflexivity.
  - cbn [fold_left]. apply IH. destruct Hin as [->|[->|Hin]].
    + left. now rewrite maximum_nan_l.
    + left. now rewrite maximum_nan_r.
    + right. exact Hin.
Qed.

Lemma np_max_nan (a : ndarray float) : In nan (ravel a) -> np_max a = Ok nan.
Proof.
  unfold np_max. destruct (ravel a) as [|x l]; [intros []|].
  intros Hin. cbn [fmaximum scalar]. now rewrite (fold_maximum_nan Hin).
Qed.

(** X9.  One NaN among the surrogate's predictions at the observed
    inputs makes [mu_sample_opt] a NaN, and with it the score of every
    candidate whose deviation is not zero, whatever [norm.cdf] and
    [norm.pdf] return; the candidates of deviation zero still score
    zero. *)
Theorem expected_improvement_nan_prediction
    (norm_cdf norm_pdf : float -> float) (X X_obs : matrix float)
    (Y_obs : ndarray float) (gpr : GaussianProcessRegressor float) (xi : float)
    (mu : list float) :
  per_candidate (predict_mean gpr X) mu ->
  length mu = length (predict_std gpr X) ->
  In nan (ravel (predict_mean gpr X_obs)) ->
  exists ei,
    expected_improvement norm_cdf norm_pdf X X_obs Y_obs gpr xi = Ok (Arr2 ei)
    /\ forall i s,
         nth_error (predict_std gpr X) i = Some s ->
         nth_error ei i = Some [if PrimFloat.eqb s 0 then 0%float else nan].
Proof.
  intros Hmu Hlen Hnan.
  exists (reshape_col (zip_with (ei_entry norm_cdf norm_pdf nan xi) mu (predict_std gpr X))).
  split.
  - apply expected_improvement_entries; [assumption|assumption|].
    now apply np_max_nan.
  - intros i s Hs.
    destruct (nth_error mu i) as [m|] eqn:Hm.
    + apply reshape_col_nth. rewrite (zip_with_nth _ _ _ _ Hm Hs). f_equal.
      unfold ei_entry, ei_formula. cbn [feqb fzero fsub fadd fmul fdiv scalar].
      destruct (PrimFloat.eqb s 0); [reflexivity|].
      now rewrite sub_nan_r, sub_nan_l, mul_nan_l, add_nan_l.
    + apply nth_error_None in Hm.
      assert (i < length (predict_std gpr X)) by (apply nth_error_Some; congruence).
      lia.
Qed.

Section Acquisition.

Variable G : Type.
Variable uniform : float -> float -> G -> float * G.
Variable fit : matrix float -> ndarray float -> GaussianProcessRegressor float.
Variable minimize :
  (list float -> result (ndarray float)) -> list float -> list (float * float) ->
  result (OptimizeResult float).
Variable acquisition :
  matrix float -> matrix float -> ndarray float -> GaussianProcessRegressor float ->
  result (ndarray float).
Variables (X_obs : matrix float) (Y_obs : list float) (bounds : list (float * float)).

Local Abbreviation gpr := (fit X_obs (Arr1 Y_obs)).

Local Abbreviation objective :=
  (min_obj acquisition X_obs (Arr1 Y_obs) gpr (shape1 X_obs)).

Local Abbreviation starts w := (fst (draw_rows uniform n_restarts bounds (rng w))).

(** X10.  Minimising the negation maximises: when the acquisition
    function gives one number, [score x], at each location [x] that the
    optimizer returns, the optimizer reports the objective of line 108
    at the location it returns, and line 114 can unwrap the values below
    the sentinel, which come in arrays, the location that the call returns
    has a score that the score of no restart's location exceeds. *)
Theorem generate_parameters_maximises_acquisition
    (w : world float G) results (score : list float -> float) :
  np_size X_obs <> 0 -> bounds <> [] -> length bounds = shape1 X_obs ->
  returns minimize objective bounds (starts w) results ->
  Forall unwraps results ->
  Exists (fun res => fltb (res_fun res) float_max = true) results ->
  (forall res, In res results ->
     length (res_x res) = shape1 X_obs
     /\ objective (res_x res) = Ok (Arr2 [[res_fun res]])
     /\ acquisition [res_x res] X_obs (Arr1 Y_obs) gpr
        = Ok (Arr2 [[score (res_x res)]])) ->
  exists loc w',
    generate_parameters uniform fit minimize acquisition X_obs Y_obs bounds w
    = (Ok loc, w')
    /\ (exists res, In res results /\ loc = res_x res)
    /\ forall res, In res results ->
                   PrimFloat.ltb (score loc) (score (res_x res)) = false.
Proof.
  intros Hsize Hne Hdim Hr Hu Hsome Hcontract.
  assert (Hneg : forall res, In res results ->
                   res_fun res = PrimFloat.opp (score (res_x res))).
  { intros res Hres. destruct (Hcontract res Hres) as (Hlen & Hobj & Hacq).
    unfold min_obj in Hobj. rewrite <- Hlen in Hobj.
    rewrite reshape_rows_point in Hobj.
    - cbn [rbind] in Hobj. rewrite Hacq in Hobj. cbn in Hobj. congruence.
    - intros E. rewrite E in Hlen. cbn in Hlen.
      destruct bounds; [congruence|]. cbn in Hdim. lia. }
  pose proof (generate_parameters_returns uniform fit w Hsize Hne Hdim Hr Hu) as Hrun.
  assert (Hloc : snd (fold_left keep results (float_max, None)) <> None)
    by (apply fold_keep_some; right; split; [reflexivity|exact Hsome]).
  destruct (kept_all results) as [Hlow Hkept].
  destruct (fold_left keep results (float_max, None)) as [v [x|]];
    cbn [fst snd] in *; [|congruence].
  destruct Hkept as (i & res & Hi & Hx & Hv & _). subst v x.
  assert (Hin : In res results) by (eapply nth_error_In, Hi).
  exists (res_x res). eexists. split; [exact Hrun|]. split; [now exists res|].
  intros res' Hres'. pose proof (Hlow res' Hres') as Hle.
  cbn [fltb scalar] in Hle.
  now rewrite (Hneg res Hin), (Hneg res' Hres'), ltb_opp in Hle.
Qed.

(** X11.  An objective value of minus infinity is below the sentinel and
    nothing is below it: when the optimizer returns on each restart,
    reports minus infinity on some of them, and line 114 can unwrap the
    values below the sentinel, which come in arrays, the location returned
    is that of the first restart that reported minus infinity. *)
Theorem generate_parameters_minus_infinity_wins (w : world float G) results :
  np_size X_obs <> 0 -> bounds <> [] -> length bounds = shape1 X_obs ->
  returns minimize objective bounds (starts w) results ->
  Forall unwraps results ->
  Exists (fun res => res_fun res = neg_infinity) results ->
  exists loc w' i res,
    generate_parameters uniform fit minimize acquisition X_obs Y_obs bounds w
    = (Ok loc, w')
    /\ nth_error results i = Some res
    /\ loc = res_x res
    /\ res_fun res = neg_infinity
    /\ forall j res', j < i -> nth_error results j = Some res' ->
                      res_fun res' <> neg_infinity.
Proof.
  intros Hsize Hne Hdim Hr Hu Hinf.
  pose proof (generate_parameters_returns uniform fit w Hsize Hne Hdim Hr Hu) as Hrun.
  assert (Hsome : Exists (fun res => fltb (res_fun res) float_max = true) results).
  { eapply Exists_impl; [|exact Hinf]. intros res ->. reflexivity. }
  assert (Hloc : snd (fold_left keep results (float_max, None)) <> None)
    by (apply fold_keep_some; right; split; [reflexivity|exact Hsome]).
  destruct (kept_all results) as [Hlow Hkept].
  destruct (fold_left keep results (float_max, None)) as [v [x|]];
    cbn [fst snd] in *; [|congruence].
  destruct Hkept as (i & res & Hi & Hx & Hv & Hb & Hbefore). subst v x.
  assert (Hval : res_fun res = neg_infinity).
  { apply Exists_exists in Hinf. destruct Hinf as (res0 & Hin0 & E0).
    pose proof (Hlow res0 Hin0) as Hle. rewrite E0 in Hle.
    cbn [fltb scalar] in Hle, Hb. rewrite ltb_spec in Hle, Hb.
    apply SFltb_number in Hb. destruct Hb as [Hnum _].
    change (Prim2SF neg_infinity) with (S754_infinity true) in Hle.
    apply Prim2SF_inj. now rewrite (SFltb_minus_infinity _ Hnum Hle). }
  exists (res_x res). eexists. exists i, res. split; [exact Hrun|].
  repeat split; try assumption.
  intros j res' Hj Hres' E. pose proof (Hbefore j res' Hj Hres') as Hle.
  rewrite E, Hval in Hle. discriminate Hle.
Qed.

End Acquisition.

End FloatEdges.

(* ------------------------------------------------------------------ *)
(** ** Runs of the further properties *)

Module MoreRuns.

Import Binary64 Binary64Facts ProposerFloat FloatEdges.
Import Doubles.

Ltac run := vm_compute; first [reflexivity | discriminate | intro; discriminate].

(** Six numbers in rows of three, and five numbers that do not fit. *)
Example reshape_rows_run :
  reshape_rows [1; 2; 3; 4; 5; 6]%float 3 = Ok [[1; 2; 3]; [4; 5; 6]]%float
  /\ reshape_rows [1; 2; 3; 4; 5]%float 3 = Raise ValueError.
Proof. split; reflexivity. Qed.

Lemma expected_improvement_raises_iff_witness :
  (ravel (predict_mean column_gpr []) = [] ->
   expected_improvement cdf pdf ScorerRuns.X [] (Arr1 []) column_gpr ScorerRuns.xi
   = Raise ValueError)
  /\ (ravel (predict_mean column_gpr []) <> [] ->
      exists ei,
        expected_improvement cdf pdf ScorerRuns.X [] (Arr1 []) column_gpr ScorerRuns.xi
        = Ok (Arr2 ei)).
Proof.
  apply (@expected_improvement_raises_iff float _ cdf pdf ScorerRuns.X [] (Arr1 [])
           column_gpr ScorerRuns.xi [0.5; 1; 2]%float).
  - left. reflexivity.
  - reflexivity.
Defined.

Lemma expected_improvement_vector_batch_witness :
  expected_improvement cdf pdf [[0.5]; [2]]%float ScorerRuns.X_obs (Arr1 [1%float])
    vector_gpr ScorerRuns.xi
  = Raise IndexError.
Proof.
  apply (@expected_improvement_vector_batch float _ cdf pdf [[0.5]; [2]]%float
           ScorerRuns.X_obs (Arr1 [1%float]) vector_gpr ScorerRuns.xi 1%float
           [0.5; 2]%float).
  - reflexivity.
  - cbn. lia.
  - reflexivity.
  - reflexivity.
Defined.

Lemma min_obj_negated_score_witness :
  min_obj (fun X Xs Ys gpr => expected_improvement cdf pdf X Xs Ys gpr ScorerRuns.xi)
    X_obs (Arr1 Y_obs) vector_gpr (length [1.75%float]) [1.75%float]
  = Ok (Arr2 [[fopp (ei_entry cdf pdf 1%float ScorerRuns.xi 1.75%float 0.75%float)]]).
Proof.
  apply (@min_obj_negated_score float _ cdf pdf X_obs (Arr1 Y_obs) vector_gpr
           ScorerRuns.xi 1%float 1.75%float 0.75%float [1.75%float]).
  - discriminate.
  - reflexivity.
  - reflexivity.
  - reflexivity.
Defined.

(** The call whose optimizer raises on the first restart: the generator
    has moved by the 25 samples all the same. *)
Lemma generate_parameters_calls_witness :
  25 = snd (draw_rows uniform n_restarts bounds (rng w0))
  /\ exists k,
       k <= 25
       /\ [EvFit X_obs (Arr1 Y_obs); EvMinimize [0.25%float]]
          = calls w0 ++ EvFit X_obs (Arr1 Y_obs)
                     :: map (@EvMinimize float) (firstn k starts)
       /\ forall loc : list float, Raise OptimizerError = Ok loc -> k = 25.
Proof.
  apply (@generate_parameters_calls float _ nat uniform fit flaky_minimize acquisition
           X_obs Y_obs bounds w0
           {| rng := 25; calls := [EvFit X_obs (Arr1 Y_obs); EvMinimize [0.25%float]] |}
           (Raise OptimizerError)).
  - run.
  - run.
  - run.
  - run.
Defined.

Lemma generate_parameters_starts_in_bounds_witness :
  exists sts,
    calls (snd (generate_parameters uniform fit box_minimize acquisition
                  X_obs Y_obs bounds w0))
    = calls w0 ++ EvFit X_obs (Arr1 Y_obs) :: map (@EvMinimize float) sts
    /\ Forall (fun x0 => in_bounds x0 bounds /\ length x0 = shape1 X_obs) sts.
Proof.
  apply (@generate_parameters_starts_in_bounds float _ nat uniform fit box_minimize
           acquisition X_obs Y_obs bounds w0 _
           (fst (generate_parameters uniform fit box_minimize acquisition
                   X_obs Y_obs bounds w0))).
  - run.
  - run.
  - run.
  - exact uniform_in_range.
  - repeat constructor.
  - apply surjective_pairing.
Defined.

(** Two pairs of bounds for observations on the line. *)
Lemma generate_parameters_bad_bounds_witness :
  generate_parameters uniform fit box_minimize acquisition X_obs Y_obs
    [(0, 2); (0, 2)]%float w0
  = (Raise ValueError, {| rng := 0; calls := [EvFit X_obs (Arr1 Y_obs)] |}).
Proof.
  apply (@generate_parameters_bad_bounds float _ nat uniform fit box_minimize
           acquisition X_obs Y_obs [(0, 2); (0, 2)]%float w0).
  - run.
  - run.
  - run.
Defined.

Lemma generate_parameters_returned_location_witness :
  exists results res,
    returns box_minimize objective bounds starts results
    /\ length results = 25
    /\ In res results
    /\ [1.75%float] = res_x res
    /\ fltb (res_fun res) float_max = true.
Proof.
  apply (@generate_parameters_returned_location float _ _ nat uniform fit box_minimize
           acquisition X_obs Y_obs bounds w0
           (snd (generate_parameters uniform fit box_minimize acquisition
                   X_obs Y_obs bounds w0))
           [1.75%float]).
  - run.
  - run.
  - run.
  - run.
Defined.

(** A surrogate asked about an observed input that is a NaN. *)
Lemma expected_improvement_nan_prediction_witness :
  exists ei,
    expected_improvement cdf pdf ScorerRuns.X [[nan]] (Arr1 [1%float]) column_gpr
      ScorerRuns.xi
    = Ok (Arr2 ei)
    /\ forall i s,
         nth_error (predict_std column_gpr ScorerRuns.X) i = Some s ->
         nth_error ei i = Some [if PrimFloat.eqb s 0 then 0%float else nan].
Proof.
  apply (@expected_improvement_nan_prediction cdf pdf ScorerRuns.X [[nan]]
           (Arr1 [1%float]) column_gpr ScorerRuns.xi [0.5; 1; 2]%float).
  - left. reflexivity.
  - reflexivity.
  - left. reflexivity.
Defined.

(** The score of a location under the stand-in surrogate. *)
Definition score (x : list float) : float :=
  match acquisition [x] X_obs (Arr1 Y_obs) (fit X_obs (Arr1 Y_obs)) with
  | Ok (Arr2 [[v]]) => v
  | _ => 0%float
  end.

Lemma box_minimize_reports_objective :
  forall res, In res (results_of box_minimize) ->
    length (res_x res) = shape1 X_obs
    /\ objective (res_x res) = Ok (Arr2 [[res_fun res]])
    /\ acquisition [res_x res] X_obs (Arr1 Y_obs) (fit X_obs (Arr1 Y_obs))
       = Ok (Arr2 [[score (res_x res)]]).
Proof.
  apply Forall_forall.
  change (results_of box_minimize)
    with ltac:(let r := eval vm_compute in (results_of box_minimize) in exact r).
  repeat (constructor; [repeat split; vm_compute; reflexivity|]).
  constructor.
Qed.

Lemma generate_parameters_maximises_acquisition_witness :
  exists loc w',
    generate_parameters uniform fit box_minimize acquisition X_obs Y_obs bounds w0
    = (Ok loc, w')
    /\ (exists res, In res (results_of box_minimize) /\ loc = res_x res)
    /\ forall res, In res (results_of box_minimize) ->
                   PrimFloat.ltb (score loc) (score (res_x res)) = false.
Proof.
  apply (@generate_parameters_maximises_acquisition nat uniform fit box_minimize
           acquisition X_obs Y_obs bounds w0 (results_of box_minimize) score).
  - run.
  - run.
  - run.
  - apply run_all_returns. run.
  - apply forallb_unwraps. run.
  - apply existsb_Exists with (f := fun res => fltb (res_fun res) float_max). run.
  - exact box_minimize_reports_objective.
Defined.

Lemma generate_parameters_minus_infinity_wins_witness :
  exists loc w' i res,
    generate_parameters uniform fit unbounded_minimize acquisition X_obs Y_obs bounds w0
    = (Ok loc, w')
    /\ nth_error (results_of unbounded_minimize) i = Some res
    /\ loc = res_x res
    /\ res_fun res = neg_infinity
    /\ forall j res', j < i -> nth_error (results_of unbounded_minimize) j = Some res' ->
                      res_fun res' <> neg_infinity.
Proof.
  apply (@generate_parameters_minus_infinity_wins nat uniform fit unbounded_minimize
           acquisition X_obs Y_obs bounds w0 (results_of unbounded_minimize)).
  - run.
  - run.
  - run.
  - apply run_all_returns. run.
  - apply forallb_unwraps. run.
  - apply Exists_cons_tl, Exists_cons_hd. reflexivity.
Defined.

End MoreRuns.
